(** * chatsapp: room membership, message broadcast and persistence

    A shallow embedding of the two Socket.IO servers of the repository:

    - [Backend]: [backend/server.js], the registry built on [Map] and [Set]
      ([register_user], [join_room], [send_message], [leave_room],
      [get_rooms], [disconnect]);
    - [Persist]: the password and persistence server of [server.js]
      ([loadData], [saveData], [join_room], [create_room], [message],
      [file_upload], [disconnect]).

    Handlers are pure functions from the state before the event to the state
    after it and the list of emitted events.  Everything a handler reads from
    the runtime (clock, random numbers, bcrypt salts) is an explicit
    argument. *)

From Stdlib Require Import NArith Ascii String.
From stdpp Require Import gmap list fin_maps fin_sets.

Local Open Scope N_scope.
Local Open Scope nat_scope.

(** ** JavaScript values used by the handlers *)

Module JS.

(** A JavaScript string is a sequence of UTF-16 code units. *)
Abbreviation jsstring := (list N).

(** Source literals are ASCII. *)
Fixpoint u16 (s : string) : jsstring :=
  match s with
  | EmptyString => []
  | String a r => N_of_ascii a :: u16 r
  end.

(** WhiteSpace and LineTerminator code points of ECMAScript, the characters
    [String.prototype.trim] removes. *)
Definition is_whitespace (c : N) : bool :=
  ((9 <=? c) && (c <=? 13) || (c =? 32) || (c =? 160) || (c =? 5760)
   || (8192 <=? c) && (c <=? 8202) || (c =? 8232) || (c =? 8233)
   || (c =? 8239) || (c =? 8287) || (c =? 12288) || (c =? 65279))%N.

Fixpoint trimStart (s : jsstring) : jsstring :=
  match s with
  | [] => []
  | c :: r => if is_whitespace c then trimStart r else s
  end.

Definition trimEnd (s : jsstring) : jsstring := rev (trimStart (rev s)).

Definition trim (s : jsstring) : jsstring := trimEnd (trimStart s).

(** [a.slice(-n)]: the last [n] elements, the whole array when it is
    shorter. *)
Definition slice_last {A} (n : nat) (a : list A) : list A :=
  drop (length a - n) a.

(** [s.slice(0, n)] on a string. *)
Definition slice_to (n : nat) (s : jsstring) : jsstring := take n s.

(** Truthiness of a string: only the empty string is falsy. *)
Definition truthy (s : jsstring) : bool :=
  match s with [] => false | _ => true end.

(** An event argument that the handler tests with [typeof]: a string, or
    some other value of which only the truthiness is observed. *)
Inductive jsval :=
  | VString (s : jsstring)
  | VOther (truthy_value : bool).

Definition truthy_val (v : jsval) : bool :=
  match v with VString s => truthy s | VOther b => b end.

(** [Number.prototype.toString()] of a non-negative integer: decimal digits,
    most significant first.  The fuel is the bit length, which bounds the
    number of decimal digits. *)
Fixpoint digits_fuel (fuel : nat) (n : N) : jsstring :=
  match fuel with
  | O => []
  | S fuel' =>
      if (n <? 10)%N then [(48 + n)%N]
      else digits_fuel fuel' (n / 10)%N ++ [(48 + n mod 10)%N]
  end.

Definition decimal (n : N) : jsstring :=
  digits_fuel (S (N.to_nat (N.size n))) n.

(** The number a string of decimal digits stands for. *)
Definition digits_value (ds : jsstring) : N :=
  foldl (λ acc d, 10 * acc + (d - 48))%N 0%N ds.

Definition is_digit (d : N) : Prop := (48 ≤ d ∧ d ≤ 57)%N.

(** The relational operator [<] on two strings: code units compared from
    the left, a proper prefix is smaller. *)
Fixpoint str_lt (a b : jsstring) : bool :=
  match a, b with
  | _, [] => false
  | [], _ :: _ => true
  | x :: a', y :: b' =>
      if (x <? y)%N then true else if (x =? y)%N then str_lt a' b' else false
  end.

End JS.

Export JS.

(** Where an emitted event goes: [socket.emit], [socket.to(room).emit],
    [io.to(room).emit], [io.emit]. *)
Inductive target :=
  | ToSocket (socketId : jsstring)
  | ToRoomExcept (room : jsstring) (socketId : jsstring)
  | ToRoom (room : jsstring)
  | ToAll.

(** What the runtime hands to one handler invocation: [Date.now()] when the
    handler first reads the clock, the formatted date of [new Date()],
    [Math.random()] (as the numerator of a fraction over 2^53) and its
    rendering [Math.random().toString(36).substr(2, 9)], the later clock
    reads of the same invocation, and the salt bcrypt generates. *)
Record env := {
  now : N;
  iso : jsstring;
  random : N;
  rand36 : jsstring;
  now_server : N;
  now_activity : N;
  salt : jsstring
}.

(** A runtime reading used in the examples: 14 November 2023,
    22:13:20 UTC. *)
Definition e0 : env :=
  {| now := 1700000000000; iso := u16 "2023-11-14T22:13:20.000Z";
     random := 4503599627370496; rand36 := u16 "i"; now_server := 1700000000000;
     now_activity := 1700000000000; salt := u16 "N9qo8uLOickgx2ZMRZoMye" |}.

(** The same reading with another clock value and random suffix. *)
Definition at_time (t : N) (suffix : jsstring) : env :=
  {| now := t; iso := iso e0; random := random e0; rand36 := suffix;
     now_server := t; now_activity := t; salt := salt e0 |}.

(** ** [backend/server.js] *)

Module Backend.

(** [messageData] of the [send_message] handler. *)
Record Message := {
  id : jsstring;
  user : jsstring;
  userId : jsstring;
  message : jsstring;
  room : jsstring;
  timestamp : jsstring;
  serverTime : N
}.

(** [userData].  [rooms] is a [Set] that the [disconnect] handler walks with
    [forEach], in insertion order: a duplicate-free list, oldest first. *)
Record User := {
  username : jsstring;
  socketId : jsstring;
  rooms : list jsstring;
  connectedAt : jsstring;
  lastActivity : N
}.

(** A value of the [rooms] map.  [users] is a [Set] of socket ids that is
    only tested, extended, shrunk and counted. *)
Record Room := {
  name : jsstring;
  users : gset jsstring;
  messages : list Message;
  createdAt : jsstring
}.

(** The two process-wide maps [users] and [rooms]. *)
Record state := {
  st_users : gmap jsstring User;
  st_rooms : gmap jsstring Room
}.

Definition initial : state := {| st_users := ∅; st_rooms := ∅ |}.

(** [Set.prototype.add] and [Set.prototype.delete] on the insertion-ordered
    set of room names. *)
Definition set_add (x : jsstring) (s : list jsstring) : list jsstring :=
  if decide (x ∈ s) then s else s ++ [x].

Definition set_delete (x : jsstring) (s : list jsstring) : list jsstring :=
  filter (λ y, y ≠ x) s.

(** Field updates of the objects held in the maps. *)
Definition with_rooms (u : User) (rs : list jsstring) : User :=
  {| username := username u; socketId := socketId u; rooms := rs;
     connectedAt := connectedAt u; lastActivity := lastActivity u |}.

Definition with_lastActivity (u : User) (t : N) : User :=
  {| username := username u; socketId := socketId u; rooms := rooms u;
     connectedAt := connectedAt u; lastActivity := t |}.

Definition with_users (r : Room) (us : gset jsstring) : Room :=
  {| name := name r; users := us; messages := messages r;
     createdAt := createdAt r |}.

Definition with_messages (r : Room) (ms : list Message) : Room :=
  {| name := name r; users := users r; messages := ms;
     createdAt := createdAt r |}.

(** One entry of [rooms_list]: name, userCount, messageCount. *)
Definition room_entry (r : Room) : jsstring * nat * nat :=
  (name r, size (users r), length (messages r)).

(** Payloads of the events the server emits. *)
Inductive payload :=
  | user_registered (userId username : jsstring)
  | rooms_list (entries : list (jsstring * nat * nat))
  | error (text : string)
  | room_history (room : jsstring) (messages : list Message)
      (userCount : nat) (joinedAt : jsstring)
  | user_joined (room user userId timestamp : jsstring) (userCount : nat)
  | receive_message (m : Message)
  | user_left (room user userId timestamp : jsstring) (userCount : nat).

Definition emit : Type := target * payload.

(** The error texts of the handlers, under the names the specification
    gives them. *)
Definition InvalidMessage : string := "Room and valid message are required".
Definition InvalidRoomName : string := "Valid room name is required".
Definition NotRegistered : string := "Please register first".
Definition RoomNotFound : string := "Room does not exist".
Definition NotMember : string := "You are not in this room".

(** [Array.from(rooms.values()).map(...)].  The map is kept as a [gmap], so
    the entries come in key order, not in insertion order. *)
Definition roomList (s : state) : list (jsstring * nat * nat) :=
  room_entry <$> (map_to_list (st_rooms s)).*2.

(** [socket.on('register_user', ...)].  A falsy [username] is replaced by
    [User_] and the first six code units of the socket id; the result is
    trimmed. *)
Definition register_user (e : env) (s : state) (sid : jsstring)
    (uname : jsstring) : state * list emit :=
  let safeUsername :=
    trim (if truthy uname then uname else u16 "User_" ++ slice_to 6 sid) in
  let userData :=
    {| username := safeUsername; socketId := sid; rooms := [];
       connectedAt := iso e; lastActivity := now e |} in
  let s' := {| st_users := <[sid := userData]> (st_users s);
               st_rooms := st_rooms s |} in
  (s', [ (ToSocket sid, user_registered sid safeUsername);
         (ToSocket sid, rooms_list (roomList s')) ]).

(** [socket.on('join_room', ...)]. *)
Definition join_room (e : env) (s : state) (sid : jsstring)
    (roomName : jsval) : state * list emit :=
  match roomName with
  | VOther _ => (s, [(ToSocket sid, error InvalidRoomName)])
  | VString rn =>
      if negb (truthy rn) || negb (truthy (trim rn)) then
        (s, [(ToSocket sid, error InvalidRoomName)])
      else
        let room := trim rn in
        match st_users s !! sid with
        | None => (s, [(ToSocket sid, error NotRegistered)])
        | Some user =>
            let roomData :=
              match st_rooms s !! room with
              | Some r => r
              | None => {| name := room; users := ∅; messages := [];
                           createdAt := iso e |}
              end in
            let roomData' := with_users roomData ({[sid]} ∪ users roomData) in
            let user' :=
              with_lastActivity (with_rooms user (set_add room (rooms user)))
                (now e) in
            ({| st_users := <[sid := user']> (st_users s);
                st_rooms := <[room := roomData']> (st_rooms s) |},
             [ (ToSocket sid,
                room_history room (slice_last 100 (messages roomData'))
                  (size (users roomData')) (iso e));
               (ToRoomExcept room sid,
                user_joined room (username user) sid (iso e)
                  (size (users roomData'))) ])
        end
  end.

(** The id of a message: [Date.now() + '-' + <random suffix>]. *)
Definition message_id (t : N) (suffix : jsstring) : jsstring :=
  decimal t ++ u16 "-" ++ suffix.

Definition messageData (e : env) (u : User) (sid room text : jsstring)
    : Message :=
  {| id := message_id (now e) (rand36 e);
     user := username u;
     userId := sid;
     message := text;
     room := room;
     timestamp := iso e;
     serverTime := now_server e |}.

(** [push] followed by the trim of the log:
    [if (messages.length > 1000) messages = messages.slice(-500)]. *)
Definition store (log : list Message) (m : Message) : list Message :=
  let log' := log ++ [m] in
  if decide (1000 < length log') then slice_last 500 log' else log'.

(** [socket.on('send_message', ...)]. *)
Definition send_message (e : env) (s : state) (sid : jsstring)
    (room : jsstring) (msg : jsval) : state * list emit :=
  match msg with
  | VOther _ => (s, [(ToSocket sid, error InvalidMessage)])
  | VString text =>
      if negb (truthy room) || negb (truthy text) then
        (s, [(ToSocket sid, error InvalidMessage)])
      else
        match st_users s !! sid with
        | None => (s, [(ToSocket sid, error NotRegistered)])
        | Some user =>
            match st_rooms s !! room with
            | None => (s, [(ToSocket sid, error RoomNotFound)])
            | Some roomData =>
                if decide (sid ∈ users roomData) then
                  let trimmedMessage := trim text in
                  if decide (length trimmedMessage = 0) then (s, [])
                  else
                    let m := messageData e user sid room trimmedMessage in
                    let roomData' :=
                      with_messages roomData (store (messages roomData) m) in
                    ({| st_users :=
                          <[sid := with_lastActivity user (now_activity e)]>
                            (st_users s);
                        st_rooms := <[room := roomData']> (st_rooms s) |},
                     [(ToRoom room, receive_message m)])
                else (s, [(ToSocket sid, error NotMember)])
            end
        end
  end.

(** [socket.on('get_rooms', ...)]. *)
Definition get_rooms (s : state) (sid : jsstring) : state * list emit :=
  (s, [(ToSocket sid, rooms_list (roomList s))]).

(** [socket.on('leave_room', ...)]. *)
Definition leave_room (e : env) (s : state) (sid : jsstring)
    (roomName : jsstring) : state * list emit :=
  match st_rooms s !! roomName, st_users s !! sid with
  | Some room, Some user =>
      let room' := with_users room (users room ∖ {[sid]}) in
      let user' := with_rooms user (set_delete roomName (rooms user)) in
      ({| st_users := <[sid := user']> (st_users s);
          st_rooms := <[roomName := room']> (st_rooms s) |},
       [(ToRoomExcept roomName sid,
         user_left roomName (username user) sid (iso e)
           (size (users room')))])
  | _, _ => (s, [])
  end.

(** The body of [user.rooms.forEach(...)] in the [disconnect] handler, run
    over the room names in order.  The maps of rooms and the events emitted
    so far are threaded through. *)
Fixpoint leave_each (e : env) (user : User) (sid : jsstring)
    (names : list jsstring) (rs : gmap jsstring Room)
    : gmap jsstring Room * list emit :=
  match names with
  | [] => (rs, [])
  | roomName :: rest =>
      match rs !! roomName with
      | Some room =>
          let room' := with_users room (users room ∖ {[sid]}) in
          let '(rs', out) :=
            leave_each e user sid rest (<[roomName := room']> rs) in
          (rs',
           (ToRoomExcept roomName sid,
            user_left roomName (username user) sid (iso e)
              (size (users room'))) :: out)
      | None => leave_each e user sid rest rs
      end
  end.

(** [socket.on('disconnect', ...)]. *)
Definition disconnect (e : env) (s : state) (sid : jsstring)
    : state * list emit :=
  match st_users s !! sid with
  | Some user =>
      let '(rs, out) := leave_each e user sid (rooms user) (st_rooms s) in
      ({| st_users := delete sid (st_users s); st_rooms := rs |}, out)
  | None =>
      ({| st_users := delete sid (st_users s); st_rooms := st_rooms s |}, [])
  end.

(** The events a socket can send to the server. *)
Inductive request :=
  | RegisterUser (username : jsstring)
  | JoinRoom (roomName : jsval)
  | SendMessage (room : jsstring) (message : jsval)
  | GetRooms
  | LeaveRoom (roomName : jsstring)
  | Disconnect.

Definition handle (e : env) (s : state) (sid : jsstring) (q : request)
    : state * list emit :=
  match q with
  | RegisterUser uname => register_user e s sid uname
  | JoinRoom rn => join_room e s sid rn
  | SendMessage r m => send_message e s sid r m
  | GetRooms => get_rooms s sid
  | LeaveRoom rn => leave_room e s sid rn
  | Disconnect => disconnect e s sid
  end.

(** A run of the server: the events are handled one after the other on the
    single event loop. *)
Fixpoint run (s : state) (evs : list (env * jsstring * request))
    : state * list emit :=
  match evs with
  | [] => (s, [])
  | (e, sid, q) :: rest =>
      let '(s1, out1) := handle e s sid q in
      let '(s2, out2) := run s1 rest in
      (s2, out1 ++ out2)
  end.

(** *** Notions used to state the properties *)

(** Every log holds at most 1000 messages. *)
Definition log_capped (s : state) : Prop :=
  ∀ k r, st_rooms s !! k = Some r → length (messages r) ≤ 1000.

(** A socket sending the texts of [script] to one room, one event each. *)
Definition sends (sid room : jsstring) (script : list (env * jsstring))
    : list (env * jsstring * request) :=
  (λ '(e, text), (e, sid, SendMessage room (VString text))) <$> script.

(** The messages these events build when each of them is accepted. *)
Definition sent (u : User) (sid room : jsstring)
    (script : list (env * jsstring)) : list Message :=
  (λ '(e, text), messageData e u sid room (trim text)) <$> script.

(** The log of a room that started empty, after [n] accepted messages:
    how many of them it holds. *)
Definition retained (n : nat) : nat :=
  if decide (n ≤ 1000) then n else 500 + (n - 1001) mod 501.

(** The log of a room before an event; empty for a room that does not
    exist yet. *)
Definition log_of (s : state) (room : jsstring) : list Message :=
  match st_rooms s !! room with Some r => messages r | None => [] end.

(** The ids of a log grow strictly from each message to every later one,
    in the order [<] of strings. *)
Definition ids_increasing (log : list Message) : Prop :=
  ∀ i j mi mj, i < j → log !! i = Some mi → log !! j = Some mj →
               str_lt (id mi) (id mj) = true.

(** The id of [m] was built at a clock reading before [t] that prints with
    as many digits as [t]. *)
Definition built_before (t : N) (m : Message) : Prop :=
  ∃ t' suffix, id m = message_id t' suffix ∧ (t' < t)%N ∧
               length (decimal t') = length (decimal t).

(** *** Scenarios *)

(** Socket [s1] registers as [ann] and joins [lobby], which creates the
    room. *)
Definition lobby_state : state :=
  (run initial
     [ (e0, u16 "s1", RegisterUser (u16 "ann"));
       (e0, u16 "s1", JoinRoom (VString (u16 "lobby"))) ]).1.

(** Socket [s2] registers as [bob] and joins rooms [a] and [b], where
    socket [s1] already is; then [s2] registers a second time. *)
Definition two_rooms : state :=
  (run initial
     [ (e0, u16 "s1", RegisterUser (u16 "ann"));
       (e0, u16 "s1", JoinRoom (VString (u16 "a")));
       (e0, u16 "s1", JoinRoom (VString (u16 "b")));
       (e0, u16 "s2", RegisterUser (u16 "bob"));
       (e0, u16 "s2", JoinRoom (VString (u16 "a")));
       (e0, u16 "s2", JoinRoom (VString (u16 "b"))) ]).1.

(** Two messages to [lobby] within one millisecond; the random suffixes
    are [z5k2m9q1x] and [a7c3e8g0b]. *)
Definition burst : state :=
  (run lobby_state
     [ (at_time 1700000000000 (u16 "z5k2m9q1x"), u16 "s1",
        SendMessage (u16 "lobby") (VString (u16 "one")));
       (at_time 1700000000000 (u16 "a7c3e8g0b"), u16 "s1",
        SendMessage (u16 "lobby") (VString (u16 "two"))) ]).1.

(** One message to [lobby]. *)
Definition one_message : state :=
  (send_message (at_time 1700000000000 (u16 "z5k2m9q1x")) lobby_state
     (u16 "s1") (u16 "lobby") (VString (u16 "one"))).1.

Definition registered_again : state :=
  (register_user e0 two_rooms (u16 "s2") (u16 "bob")).1.

(** The [user_left] events of a list of emitted events. *)
Definition is_user_left (p : payload) : bool :=
  match p with user_left _ _ _ _ _ => true | _ => false end.

Definition user_left_events (out : list emit) : list emit :=
  List.filter (λ ev, is_user_left ev.2) out.

(** *** Invariants of the two maps *)

(** The set of rooms in a user record has no duplicates, and every room in
    it exists and has the socket among its members. *)
Definition consistent (s : state) : Prop :=
  ∀ sid u, st_users s !! sid = Some u →
    NoDup (rooms u) ∧
    ∀ k, k ∈ rooms u → ∃ r, st_rooms s !! k = Some r ∧ sid ∈ users r.

(** A room is stored under its name, which is not empty. *)
Definition well_named (s : state) : Prop :=
  ∀ k r, st_rooms s !! k = Some r → name r = k ∧ k ≠ [].

(** A text that is not empty and neither starts nor ends with a white
    space. *)
Definition trimmed (t : jsstring) : Prop :=
  t ≠ [] ∧
  (∀ c, head t = Some c → is_whitespace c = false) ∧
  (∀ c, last t = Some c → is_whitespace c = false).

(** Every stored message names the room it is stored in and carries a
    trimmed text. *)
Definition logs_clean (s : state) : Prop :=
  ∀ k r m, st_rooms s !! k = Some r → m ∈ messages r →
    room m = k ∧ trimmed (message m).

(** A room after [room.users.delete(socketId)]. *)
Definition without (sid : jsstring) (r : Room) : Room :=
  with_users r (users r ∖ {[sid]}).

(** [room.users.size] of the room stored under [k]; 0 when there is no such
    room. *)
Definition member_count (s : state) (k : jsstring) : nat :=
  match st_rooms s !! k with Some r => size (users r) | None => 0 end.

(** The event [user_left] that [disconnect] and [leave_room] send to the
    other members of room [k]. *)
Definition left_event (e : env) (u : User) (sid k : jsstring) (n : nat)
    : emit :=
  (ToRoomExcept k sid, user_left k (username u) sid (iso e) n).

End Backend.

(** ** [server.js], the server with passwords and persistence *)

(** The two functions of [bcryptjs] the server calls.  [bcrypt_hash p salt]
    is [bcrypt.hash(p, 10)] when the generated salt is [salt];
    [bcrypt_compare p h] is [bcrypt.compare(p, h)].  [None] stands for a
    rejected promise. *)
Class Bcrypt := {
  bcrypt_hash : jsstring → jsstring → option jsstring;
  bcrypt_compare : jsstring → jsstring → option bool
}.

(** An instance to run the model with: the hash keeps the password in clear
    behind the version, cost and salt; [compare] re-hashes with the salt of
    the stored hash. *)
Definition plain_hash (pw salt : jsstring) : jsstring :=
  u16 "$2a$10$" ++ take 22 salt ++ pw.

#[export] Instance plain_bcrypt : Bcrypt := {|
  bcrypt_hash pw salt := Some (plain_hash pw salt);
  bcrypt_compare pw h :=
    Some (bool_decide (plain_hash pw (take 22 (drop 7 h)) = h))
|}.

Module Persist.

(** The part of [messageData] that differs between [message] and
    [file_upload]. *)
Inductive body :=
  | Text (text : jsstring)
  | File (fileName fileData fileType : jsstring).

(** [messageData].  The id is [Date.now() + Math.random()]: the two summands
    are kept, the floating-point sum is not computed. *)
Record Message := {
  id : N * N;
  username : jsstring;
  content : body;
  time : jsstring;
  timestamp : N
}.

(** A value of the [rooms] object.  [password] is [null] or a hash;
    [users] is an array of socket ids. *)
Record Room := {
  name : jsstring;
  password : option jsstring;
  creator : jsstring;
  users : list jsstring;
  messages : list Message
}.

(** A value of the [users] object. *)
Record User := {
  u_username : jsstring;
  currentRoom : jsstring
}.

Record state := {
  st_rooms : gmap jsstring Room;
  st_users : gmap jsstring User
}.

Definition public_room (n : string) : Room :=
  {| name := u16 n; password := None; creator := u16 "system";
     users := []; messages := [] |}.

(** [const rooms = { general, random, tech }]. *)
Definition default_rooms : gmap jsstring Room :=
  <[u16 "tech" := public_room "Tech Talk"]>
    (<[u16 "random" := public_room "Random Talk"]>
       (<[u16 "general" := public_room "General Chat"]> ∅)).

Definition with_users (r : Room) (us : list jsstring) : Room :=
  {| name := name r; password := password r; creator := creator r;
     users := us; messages := messages r |}.

Definition with_messages (r : Room) (ms : list Message) : Room :=
  {| name := name r; password := password r; creator := creator r;
     users := users r; messages := ms |}.

(** [!!room.password]. *)
Definition hasPassword (r : Room) : bool :=
  match password r with Some h => truthy h | None => false end.

(** [a.indexOf(x)] followed by [a.splice(index, 1)] when the index is not
    [-1]: the first occurrence is removed.  [None] when there is none. *)
Fixpoint splice_first (x : jsstring) (a : list jsstring)
    : option (list jsstring) :=
  match a with
  | [] => None
  | y :: r =>
      if decide (y = x) then Some r
      else match splice_first x r with
           | Some r' => Some (y :: r')
           | None => None
           end
  end.

Inductive payload :=
  | room_list (entries : list (jsstring * jsstring * nat * bool * jsstring))
  | join_error (text : string)
  | user_left (username roomId : jsstring)
  | room_update (roomId : jsstring) (userCount : nat)
      (hasPassword : option bool)
  | room_joined (roomId roomName : jsstring)
      (previousMessages : list Message)
  | user_joined (username roomId : jsstring)
  | create_error (text : string)
  | new_room (id name : jsstring) (userCount : nat) (hasPassword : bool)
      (creator : jsstring)
  | auto_join (roomId roomName : jsstring)
  | message (m : Message)
  | user_typing (username : jsstring) (isTyping : bool).

Definition emit : Type := target * payload.

Definition RoomNotFound : string := "Room does not exist".
Definition InvalidPassword : string := "Incorrect password".
Definition ServerError : string := "Server error".
Definition RoomAlreadyExists : string := "Room already exists".

(** The [room_list] sent on connection; entries in key order. *)
Definition connection (s : state) (sid : jsstring) : state * list emit :=
  (s, [(ToSocket sid,
        room_list ((λ '(i, r), (i, name r, length (users r), hasPassword r,
                                creator r)) <$> map_to_list (st_rooms s)))]).

Section handlers.
Context `{Bcrypt}.

(** The password check of [join_room]: [None] when the join may proceed,
    otherwise the text of the [join_error]. *)
Definition check_password (room : Room) (pw : jsstring) : option string :=
  if hasPassword room then
    match bcrypt_compare pw (default [] (password room)) with
    | Some true => None
    | Some false => Some InvalidPassword
    | None => Some ServerError
    end
  else None.

(** The block [// Leave previous room] of [join_room]. *)
Definition leave_previous (s : state) (sid : jsstring)
    : gmap jsstring Room * list emit :=
  match st_users s !! sid with
  | Some u =>
      if truthy (currentRoom u) then
        let oldRoom := currentRoom u in
        match st_rooms s !! oldRoom with
        | Some r =>
            match splice_first sid (users r) with
            | Some us =>
                (<[oldRoom := with_users r us]> (st_rooms s),
                 [ (ToRoom oldRoom, user_left (u_username u) oldRoom);
                   (ToRoom oldRoom, room_update oldRoom (length us) None) ])
            | None => (st_rooms s, [])
            end
        | None => (st_rooms s, [])
        end
      else (st_rooms s, [])
  | None => (st_rooms s, [])
  end.

(** [socket.on('join_room', ...)].  A room named by [currentRoom] is always
    present in a run from the initial state (rooms are never removed), so
    the last [None] branch, where the source would dereference [undefined],
    is not reached. *)
Definition join_room (s : state) (sid : jsstring)
    (roomId uname pw : jsstring) : state * list emit :=
  match st_rooms s !! roomId with
  | None => (s, [(ToSocket sid, join_error RoomNotFound)])
  | Some room =>
      match check_password room pw with
      | Some text => (s, [(ToSocket sid, join_error text)])
      | None =>
          let '(rs, out) := leave_previous s sid in
          match rs !! roomId with
          | Some r =>
              let r' := with_users r (users r ++ [sid]) in
              ({| st_rooms := <[roomId := r']> rs;
                  st_users :=
                    <[sid := {| u_username := uname;
                                currentRoom := roomId |}]> (st_users s) |},
               out ++
               [ (ToSocket sid,
                  room_joined roomId (name r') (slice_last 50 (messages r')));
                 (ToRoomExcept roomId sid, user_joined uname roomId);
                 (ToAll,
                  room_update roomId (length (users r'))
                    (Some (hasPassword r'))) ])
          | None => (s, out)
          end
      end
  end.

(** [socket.on('create_room', ...)]. *)
Definition create_room (e : env) (s : state) (sid : jsstring)
    (roomId roomName pw creator : jsstring) : state * list emit :=
  match st_rooms s !! roomId with
  | Some _ => (s, [(ToSocket sid, create_error RoomAlreadyExists)])
  | None =>
      let hashed :=
        if truthy pw && truthy (trim pw) then
          match bcrypt_hash (trim pw) (salt e) with
          | Some h => Some (Some h)
          | None => None
          end
        else Some None in
      match hashed with
      | None => (s, [(ToSocket sid, create_error ServerError)])
      | Some hashedPassword =>
          let r := {| name := roomName; password := hashedPassword;
                      creator := creator; users := []; messages := [] |} in
          ({| st_rooms := <[roomId := r]> (st_rooms s);
              st_users := st_users s |},
           [ (ToAll, new_room roomId roomName 0 (hasPassword r) creator);
             (ToSocket sid, auto_join roomId roomName) ])
      end
  end.

End handlers.

(** The common part of [message] and [file_upload]: the guard, the [push]
    and the broadcast. *)
Definition post (e : env) (s : state) (sid roomId : jsstring)
    (b : body) : state * list emit :=
  match st_rooms s !! roomId, st_users s !! sid with
  | Some r, Some u =>
      let m := {| id := (now e, random e); username := u_username u;
                  content := b; time := iso e;
                  timestamp := now_server e |} in
      ({| st_rooms := <[roomId := with_messages r (messages r ++ [m])]>
                        (st_rooms s);
          st_users := st_users s |},
       [(ToRoom roomId, message m)])
  | _, _ => (s, [])
  end.

(** [socket.on('message', ...)]. *)
Definition on_message (e : env) (s : state) (sid : jsstring)
    (roomId text : jsstring) : state * list emit :=
  post e s sid roomId (Text text).

(** [socket.on('file_upload', ...)]. *)
Definition file_upload (e : env) (s : state) (sid : jsstring)
    (roomId fileData fileName fileType : jsstring) : state * list emit :=
  post e s sid roomId (File fileName fileData fileType).

(** [socket.on('typing', ...)]. *)
Definition typing (s : state) (sid roomId : jsstring) (isTyping : bool)
    : state * list emit :=
  match st_rooms s !! roomId, st_users s !! sid with
  | Some _, Some u =>
      (s, [(ToRoomExcept roomId sid, user_typing (u_username u) isTyping)])
  | _, _ => (s, [])
  end.

(** [socket.on('disconnect', ...)]. *)
Definition disconnect (s : state) (sid : jsstring) : state * list emit :=
  match st_users s !! sid with
  | Some u =>
      let roomId := currentRoom u in
      let '(rs, out) :=
        if truthy roomId then
          match st_rooms s !! roomId with
          | Some r =>
              match splice_first sid (users r) with
              | Some us =>
                  let r' := with_users r us in
                  (<[roomId := r']> (st_rooms s),
                   [ (ToRoom roomId, user_left (u_username u) roomId);
                     (ToAll,
                      room_update roomId (length us)
                        (Some (hasPassword r'))) ])
              | None => (st_rooms s, [])
              end
          | None => (st_rooms s, [])
          end
        else (st_rooms s, []) in
      ({| st_rooms := rs; st_users := delete sid (st_users s) |}, out)
  | None => (s, [])
  end.

(** *** Persistence *)

(** What [fs.readFile] and [JSON.parse] make of one of the two documents:
    the file is missing, its content does not parse, or it parses to an
    object with the listed keys and values of type [A].  A document that
    parses to another value ([null], or an object with a value of another
    shape) is not covered. *)
Inductive document (A : Type) :=
  | Absent
  | Corrupt
  | Holds (entries : list (jsstring * A)).
Arguments Absent {A}.
Arguments Corrupt {A}.
Arguments Holds {A} entries.

(** The data directory.  An entry of [messages.json] is an array of
    messages or a falsy value ([None]). *)
Record disk := {
  dataDir : bool;
  messagesFile : document (option (list Message));
  roomsFile : document Room
}.

(** The [catch] branch of [loadData]: [mkdir] and two files holding [{}]. *)
Definition fresh_disk : disk :=
  {| dataDir := true; messagesFile := Holds []; roomsFile := Holds [] |}.

(** [Object.keys(savedMessages).forEach(...)]. *)
Definition merge_messages (rs : gmap jsstring Room)
    (saved : list (jsstring * option (list Message))) : gmap jsstring Room :=
  foldl (λ acc '(roomId, ms),
           match acc !! roomId with
           | Some r => <[roomId := with_messages r (default [] ms)]> acc
           | None => acc
           end) rs saved.

(** [Object.keys(savedRooms).forEach(...)]. *)
Definition overlay_rooms (rs : gmap jsstring Room)
    (saved : list (jsstring * Room)) : gmap jsstring Room :=
  foldl (λ acc '(roomId, r), <[roomId := r]> acc) rs saved.

(** [loadData]: the rooms after loading and the disk it leaves. *)
Definition loadData (rs : gmap jsstring Room) (d : disk)
    : gmap jsstring Room * disk :=
  if dataDir d then
    match messagesFile d, roomsFile d with
    | Holds savedMessages, Holds savedRooms =>
        (overlay_rooms (merge_messages rs savedMessages) savedRooms, d)
    | _, _ => (rs, fresh_disk)
    end
  else (rs, fresh_disk).

(** What [saveData] writes for a room in [rooms.json]. *)
Definition room_to_save (r : Room) : Room :=
  {| name := name r; password := password r; creator := creator r;
     users := []; messages := [] |}.

(** [saveData]; a failed write (no data directory) is logged and leaves the
    disk as it is. *)
Definition saveData (rs : gmap jsstring Room) (d : disk) : disk :=
  if dataDir d then
    {| dataDir := true;
       messagesFile :=
         Holds (map_to_list
                  ((λ r, Some (slice_last 100 (messages r))) <$> rs));
       roomsFile := Holds (map_to_list (room_to_save <$> rs)) |}
  else d.

(** The state of the process when it starts to listen. *)
Definition boot (d : disk) : state :=
  {| st_rooms := (loadData default_rooms d).1; st_users := ∅ |}.

(** *** Events and runs *)

(** [rooms] is a plain object: [rooms[k]] also finds the properties of
    [Object.prototype].  The handlers are modelled for the keys that are
    not among these names. *)
Definition prototype_names : list jsstring :=
  u16 <$> [ "constructor"; "__proto__"; "hasOwnProperty"; "isPrototypeOf";
            "propertyIsEnumerable"; "toLocaleString"; "toString"; "valueOf";
            "__defineGetter__"; "__defineSetter__"; "__lookupGetter__";
            "__lookupSetter__" ]%string.

Definition own_name (k : jsstring) : Prop := k ∉ prototype_names.

(** The events a socket can send to the server, with strings in every
    field, as the client of the repository sends them; [Connection] is the
    connection itself. *)
Inductive request :=
  | Connection
  | JoinRoom (roomId username password : jsstring)
  | CreateRoom (roomId roomName password creator : jsstring)
  | PostMessage (roomId text : jsstring)
  | FileUpload (roomId fileData fileName fileType : jsstring)
  | Typing (roomId : jsstring) (isTyping : bool)
  | Disconnect.

Definition handle `{Bcrypt} (e : env) (s : state) (sid : jsstring)
    (q : request) : state * list emit :=
  match q with
  | Connection => connection s sid
  | JoinRoom roomId uname pw => join_room s sid roomId uname pw
  | CreateRoom roomId roomName pw creator =>
      create_room e s sid roomId roomName pw creator
  | PostMessage roomId text => on_message e s sid roomId text
  | FileUpload roomId fileData fileName fileType =>
      file_upload e s sid roomId fileData fileName fileType
  | Typing roomId isTyping => typing s sid roomId isTyping
  | Disconnect => disconnect s sid
  end.

(** A run in which every handler finishes before the next event is
    handled: no other event is taken while [join_room] or [create_room]
    waits for bcrypt. *)
Fixpoint run `{Bcrypt} (s : state) (evs : list (env * jsstring * request))
    : state * list emit :=
  match evs with
  | [] => (s, [])
  | (e, sid, q) :: rest =>
      let '(s1, out1) := handle e s sid q in
      let '(s2, out2) := run s1 rest in
      (s2, out1 ++ out2)
  end.

(** The room id of a request that names one. *)
Definition room_of (q : request) : option jsstring :=
  match q with
  | JoinRoom roomId _ _ | CreateRoom roomId _ _ _ | PostMessage roomId _
  | FileUpload roomId _ _ _ | Typing roomId _ => Some roomId
  | Connection | Disconnect => None
  end.

(** A request whose room id, a string as every field of a request here, is
    not a name of [Object.prototype], and which does not create a room with
    the empty id. *)
Definition plain (q : request) : Prop :=
  (∀ k, room_of q = Some k → own_name k) ∧
  (∀ k n p c, q = CreateRoom k n p c → k ≠ []).

(** *** The single active room *)

(** No room has the empty id; the member list of a room has no duplicates
    and lists only sockets whose user record names this room as
    [currentRoom]; and every user record names a room that lists the
    socket. *)
Definition one_room (s : state) : Prop :=
  st_rooms s !! [] = None ∧
  (∀ k r, st_rooms s !! k = Some r →
     NoDup (users r) ∧
     ∀ sid, sid ∈ users r →
       ∃ u, st_users s !! sid = Some u ∧ currentRoom u = k) ∧
  (∀ sid u, st_users s !! sid = Some u →
     ∃ r, st_rooms s !! currentRoom u = Some r ∧ sid ∈ users r).

(** Name, password hash and creator of a room. *)
Definition metadata (r : Room) : jsstring * option jsstring * jsstring :=
  (name r, password r, creator r).

(** [rs] holds the rooms of [s] with socket [sid] taken out of every
    member list, and nothing else changed. *)
Definition vacated (s : state) (sid : jsstring)
    (rs : gmap jsstring Room) : Prop :=
  ∀ k, option_Forall2
         (λ r r0, metadata r = metadata r0 ∧ messages r = messages r0 ∧
                  NoDup (users r) ∧
                  ∀ x, x ∈ users r ↔ x ∈ users r0 ∧ x ≠ sid)
         (rs !! k) (st_rooms s !! k).

(** *** Scenarios *)

(** A socket joins [general] on a freshly booted server and posts [n]
    texts to it. *)
Definition flood (n : nat) : state :=
  Nat.iter n
    (λ s, (on_message e0 s (u16 "s1") (u16 "general") (u16 "hi")).1)
    (join_room (boot fresh_disk) (u16 "s1") (u16 "general") (u16 "ann") []).1.


(** A room created with a password that has a blank on either side. *)
Definition vault : state :=
  (create_room e0 (boot fresh_disk) (u16 "s1") (u16 "vault") (u16 "Vault")
     (u16 " secret ") (u16 "ann")).1.

(** The disk after [saveData] has run on a server with three messages in
    [general]. *)
Definition saved_disk : disk := saveData (st_rooms (flood 3)) fresh_disk.

(** The sum [Date.now() + Math.random()] of an id before rounding, in units
    of 2^-53.  The id the code stores is the double nearest to this sum;
    rounding to the nearest double is monotone, so of two ids the one with
    the smaller sum is not the greater. *)
Definition id_sum (i : N * N) : N := (i.1 * 2 ^ 53 + i.2)%N.

(** The reading [e0] with another value of [Math.random()]. *)
Definition with_random (x : N) : env :=
  {| now := now e0; iso := iso e0; random := x; rand36 := rand36 e0;
     now_server := now_server e0; now_activity := now_activity e0;
     salt := salt e0 |}.

(** A socket joins [general] and posts two texts within one millisecond;
    [Math.random()] gives 0.75, then 0.25.  Both sums are doubles: the ids
    are 1700000000000.75 and 1700000000000.25. *)
Definition same_tick : state :=
  (on_message (with_random 2251799813685248)
     (on_message (with_random 6755399441055744)
        (flood 0) (u16 "s1") (u16 "general") (u16 "one")).1
     (u16 "s1") (u16 "general") (u16 "two")).1.

End Persist.

(** ** [server.js], the first server of the file *)

Module Simple.

(** [messageData] of [send_message]; the message is stored as it came. *)
Record Message := {
  id : N;
  user : jsstring;
  message : jsval;
  timestamp : jsstring
}.

(** A value of the [users] map; a falsy [username] is the empty string. *)
Record User := {
  username : jsstring;
  rooms : list jsstring
}.

Record Room := {
  name : jsstring;
  users : gset jsstring;
  messages : list Message
}.

Record state := {
  st_users : gmap jsstring User;
  st_rooms : gmap jsstring Room
}.

Definition initial : state := {| st_users := ∅; st_rooms := ∅ |}.

Inductive payload :=
  | user_registered (userId username : jsstring)
  | room_history (room : jsstring) (messages : list Message)
  | user_joined (room user : jsstring)
  | receive_message (m : Message)
  | user_left (room user : jsstring)
  | rooms_list (entries : list (jsstring * nat)).

Definition emit : Type := target * payload.

(** [user?.username || fallback]. *)
Definition display (u : option User) (fallback : jsstring) : jsstring :=
  match u with
  | Some u => if truthy (username u) then username u else fallback
  | None => fallback
  end.

(** [socket.on('register_user', ...)]. *)
Definition register_user (s : state) (sid uname : jsstring)
    : state * list emit :=
  ({| st_users := <[sid := {| username := uname; rooms := [] |}]>
                    (st_users s);
      st_rooms := st_rooms s |},
   [(ToSocket sid, user_registered sid uname)]).

(** [socket.on('join_room', ...)]: no check of the name, no check of the
    registration. *)
Definition join_room (s : state) (sid roomName : jsstring)
    : state * list emit :=
  let room :=
    match st_rooms s !! roomName with
    | Some r => r
    | None => {| name := roomName; users := ∅; messages := [] |}
    end in
  let room' := {| name := name room; users := {[sid]} ∪ users room;
                  messages := messages room |} in
  let user := st_users s !! sid in
  ({| st_users :=
        match user with
        | Some u =>
            <[sid := {| username := username u;
                        rooms := Backend.set_add roomName (rooms u) |}]>
              (st_users s)
        | None => st_users s
        end;
      st_rooms := <[roomName := room']> (st_rooms s) |},
   [ (ToSocket sid, room_history roomName (slice_last 50 (messages room')));
     (ToRoomExcept roomName sid, user_joined roomName (display user sid)) ]).

(** [socket.on('send_message', ...)]. *)
Definition send_message (e : env) (s : state) (sid room : jsstring)
    (msg : jsval) : state * list emit :=
  match st_rooms s !! room with
  | None => (s, [])
  | Some roomData =>
      let m := {| id := now e;
                  user := display (st_users s !! sid) (u16 "Anonymous");
                  message := msg; timestamp := iso e |} in
      ({| st_users := st_users s;
          st_rooms :=
            <[room := {| name := name roomData; users := users roomData;
                         messages := messages roomData ++ [m] |}]>
              (st_rooms s) |},
       [(ToRoom room, receive_message m)])
  end.

(** [socket.on('leave_room', ...)]; [user_left] is emitted in any case. *)
Definition leave_room (s : state) (sid roomName : jsstring)
    : state * list emit :=
  let user := st_users s !! sid in
  ({| st_users :=
        match user with
        | Some u =>
            <[sid := {| username := username u;
                        rooms := Backend.set_delete roomName (rooms u) |}]>
              (st_users s)
        | None => st_users s
        end;
      st_rooms :=
        match st_rooms s !! roomName with
        | Some r =>
            <[roomName := {| name := name r; users := users r ∖ {[sid]};
                             messages := messages r |}]> (st_rooms s)
        | None => st_rooms s
        end |},
   [(ToRoomExcept roomName sid, user_left roomName (display user sid))]).

(** [socket.on('get_rooms', ...)]; entries in key order. *)
Definition get_rooms (s : state) (sid : jsstring) : state * list emit :=
  (s, [(ToSocket sid,
        rooms_list ((λ r, (name r, size (users r)))
                      <$> (map_to_list (st_rooms s)).*2))]).

(** [socket.on('disconnect', ...)]: only the user record goes. *)
Definition disconnect (s : state) (sid : jsstring) : state * list emit :=
  ({| st_users := delete sid (st_users s); st_rooms := st_rooms s |}, []).

Inductive request :=
  | RegisterUser (username : jsstring)
  | JoinRoom (roomName : jsstring)
  | SendMessage (room : jsstring) (message : jsval)
  | LeaveRoom (roomName : jsstring)
  | GetRooms
  | Disconnect.

Definition handle (e : env) (s : state) (sid : jsstring) (q : request)
    : state * list emit :=
  match q with
  | RegisterUser uname => register_user s sid uname
  | JoinRoom rn => join_room s sid rn
  | SendMessage r m => send_message e s sid r m
  | LeaveRoom rn => leave_room s sid rn
  | GetRooms => get_rooms s sid
  | Disconnect => disconnect s sid
  end.

Fixpoint run (s : state) (evs : list (env * jsstring * request))
    : state * list emit :=
  match evs with
  | [] => (s, [])
  | (e, sid, q) :: rest =>
      let '(s1, out1) := handle e s sid q in
      let '(s2, out2) := run s1 rest in
      (s2, out1 ++ out2)
  end.

(** The log of room [k]; empty when there is no such room. *)
Definition log_of (s : state) (k : jsstring) : list Message :=
  match st_rooms s !! k with Some r => messages r | None => [] end.

(** Whether the event is a [send_message] to room [k]. *)
Definition posts_to (k : jsstring) (ev : env * jsstring * request) : bool :=
  match ev.2 with
  | SendMessage room _ => bool_decide (room = k)
  | _ => false
  end.

(** Whether the event is socket [x] leaving room [k]. *)
Definition leaves (x k : jsstring) (ev : env * jsstring * request) : bool :=
  match ev with
  | (_, sid, LeaveRoom room) => bool_decide (sid = x ∧ room = k)
  | _ => false
  end.

End Simple.

(** ** The client: [components/Chat.jsx] and [components/RoomList.jsx] *)

Module Client.

(** An entry of the room list the client keeps; [hasPassword] is
    [undefined] ([None]) when the server sent none. *)
Record RoomEntry := {
  id : jsstring;
  name : jsstring;
  userCount : nat;
  hasPassword : option bool;
  creator : jsstring
}.

(** The handler of [room_update]: [prev.map(room => room.id === roomId ?
    {...room, userCount, hasPassword} : room)]. *)
Definition on_room_update (prev : list RoomEntry) (roomId : jsstring)
    (count : nat) (flag : option bool) : list RoomEntry :=
  (λ room, if decide (id room = roomId)
           then {| id := id room; name := name room; userCount := count;
                   hasPassword := flag; creator := creator room |}
           else room) <$> prev.

(** The handler of [new_room]: [[...prev, newRoom]]. *)
Definition on_new_room (prev : list RoomEntry) (newRoom : RoomEntry)
    : list RoomEntry :=
  prev ++ [newRoom].

(** [Array.from(new Set(a))]: the first occurrence of every element, in
    order. *)
Definition array_of_set (a : list jsstring) : list jsstring :=
  foldl (λ acc x, Backend.set_add x acc) [] a.

(** The handler of [user_typing]. *)
Definition on_user_typing (prev : list jsstring) (username : jsstring)
    (isTyping : bool) : list jsstring :=
  if isTyping then Backend.set_add username (array_of_set prev)
  else filter (λ user, user ≠ username) prev.

(** The character class [[a-z0-9-]]. *)
Definition url_safe (c : N) : bool :=
  ((97 <=? c) && (c <=? 122) || (48 <=? c) && (c <=? 57) || (c =? 45))%N.

(** [s.replace(/[^a-z0-9-]/g, '-')]. *)
Definition dashed (s : jsstring) : jsstring :=
  (λ c, if url_safe c then c else 45%N) <$> s.

(** The argument of [create_room] as [handleCreateRoom] builds it. *)
Record CreateRoom := {
  roomId : jsstring;
  roomName : jsstring;
  password : jsstring;
  room_creator : jsstring
}.

Section room_form.
(** [String.prototype.toLowerCase]. *)
Variable toLowerCase : jsstring → jsstring.

(** [handleCreateRoom]: [None] when the form is not submitted (a blank id
    or name, or two different passwords). *)
Definition handleCreateRoom
    (newRoomId newRoomName roomPassword confirmPassword username : jsstring)
    : option CreateRoom :=
  if truthy (trim newRoomId) && truthy (trim newRoomName) then
    if decide (roomPassword = confirmPassword) then
      Some {| roomId := dashed (toLowerCase (trim newRoomId));
              roomName := trim newRoomName;
              password := roomPassword;
              room_creator := username |}
    else None
  else None.

End room_form.

End Client.

(** * Decimal numerals and the order of strings *)

Module JSFacts.

Lemma digits_value_snoc (ds : jsstring) (d : N) :
  digits_value (ds ++ [d]) = (10 * digits_value ds + (d - 48))%N.
Proof. unfold digits_value. by rewrite foldl_app. Qed.

Lemma digits_fuel_sound (fuel : nat) :
  ∀ n : N, (n < 2 ^ N.of_nat fuel)%N →
    digits_value (digits_fuel fuel n) = n ∧
    Forall is_digit (digits_fuel fuel n).
Proof.
  induction fuel as [| fuel IH]; intros n Hn.
  - assert (n = 0%N) as -> by (simpl in Hn; lia). by split.
  - simpl digits_fuel. destruct (N.ltb_spec n 10) as [Hsmall | Hbig].
    + split.
      * unfold digits_value. simpl. lia.
      * apply Forall_singleton. unfold is_digit. lia.
    + rewrite Nat2N.inj_succ, N.pow_succ_r' in Hn.
      destruct (IH (n / 10)%N) as [Hval Hdig].
      { apply N.Div0.div_lt_upper_bound.
        generalize dependent (2 ^ N.of_nat fuel)%N. intros. lia. }
      clear Hn.
      assert (Hmod : (n mod 10 < 10)%N) by (apply N.mod_upper_bound; lia).
      assert (Hdm : n = (10 * (n / 10) + n mod 10)%N)
        by (apply N.div_mod; lia).
      split.
      * rewrite digits_value_snoc, Hval. clear Hval Hdig.
        generalize dependent (n / 10)%N. generalize dependent (n mod 10)%N.
        intros. lia.
      * apply Forall_app. split; [done |].
        apply Forall_singleton. unfold is_digit. clear Hdm.
        generalize dependent (n mod 10)%N. intros. lia.
Qed.

Lemma decimal_sound (n : N) :
  digits_value (decimal n) = n ∧ Forall is_digit (decimal n).
Proof.
  apply digits_fuel_sound.
  pose proof (N.size_gt n) as Hgt.
  rewrite Nat2N.inj_succ, N2Nat.id, N.pow_succ_r'. lia.
Qed.

Lemma foldl_digits (ds : jsstring) :
  ∀ acc : N,
    foldl (λ acc d, 10 * acc + (d - 48))%N acc ds
    = (acc * 10 ^ N.of_nat (length ds) + digits_value ds)%N.
Proof.
  unfold digits_value. induction ds as [| c ds IH]; intros acc.
  - simpl. lia.
  - cbn [foldl length].
    rewrite (IH (10 * acc + (c - 48))%N), (IH (10 * 0 + (c - 48))%N).
    rewrite Nat2N.inj_succ, N.pow_succ_r'. ring.
Qed.

Lemma digits_value_cons (d : N) (ds : jsstring) :
  digits_value (d :: ds)
  = ((d - 48) * 10 ^ N.of_nat (length ds) + digits_value ds)%N.
Proof.
  unfold digits_value at 1. cbn [foldl]. by rewrite foldl_digits.
Qed.

Lemma digits_value_bound (ds : jsstring) :
  Forall is_digit ds → (digits_value ds < 10 ^ N.of_nat (length ds))%N.
Proof.
  induction 1 as [| d ds [Hlo Hhi] _ IH].
  - simpl. unfold digits_value. simpl. lia.
  - rewrite digits_value_cons. simpl length.
    rewrite Nat2N.inj_succ, N.pow_succ_r'. nia.
Qed.

(** Two numerals of the same width compare as the numbers they stand for,
    whatever follows them. *)
Lemma str_lt_digits (a : jsstring) :
  ∀ b x y : jsstring,
    length a = length b → Forall is_digit a → Forall is_digit b →
    (digits_value a < digits_value b)%N →
    str_lt (a ++ x) (b ++ y) = true.
Proof.
  induction a as [| c a IH]; intros [| d b] x y Hlen Ha Hb Hlt;
    try discriminate.
  apply Forall_cons in Ha as [[Hc1 Hc2] Ha].
  apply Forall_cons in Hb as [[Hd1 Hd2] Hb].
    injection Hlen as Hlen. rewrite !digits_value_cons in Hlt.
    pose proof (digits_value_bound a Ha) as Hba.
    pose proof (digits_value_bound b Hb) as Hbb.
    rewrite Hlen in Hlt, Hba.
    assert (Hcases : (c < d)%N ∨ c = d ∧ (digits_value a < digits_value b)%N).
    { clear IH. generalize dependent (digits_value a).
      generalize dependent (digits_value b).
      generalize dependent (10 ^ N.of_nat (length b))%N. intros P vb Hvb va.
      intros. 
      destruct (N.lt_total c d) as [Hcd | [-> | Hdc]];
        [by left | right; split; [done | lia] | exfalso; nia]. }
    simpl. destruct Hcases as [Hcd | [-> Hrest]].
    + by apply N.ltb_lt in Hcd as ->.
    + rewrite N.ltb_irrefl, N.eqb_refl. by apply IH.
Qed.

End JSFacts.

(** * Properties of [backend/server.js] *)

Module BackendSpec.
Import Backend JSFacts.

(** ** Lists *)

Lemma slice_last_length {A} n (a : list A) :
  length (slice_last n a) = n `min` length a.
Proof. unfold slice_last. rewrite length_drop. lia. Qed.

Lemma slice_last_all {A} n (a : list A) :
  length a ≤ n → slice_last n a = a.
Proof.
  intros Hle. unfold slice_last.
  replace (length a - n) with 0 by lia. done.
Qed.

Lemma slice_last_snoc {A} n (a : list A) x :
  slice_last (S n) (a ++ [x]) = slice_last n a ++ [x].
Proof.
  unfold slice_last. rewrite length_app. simpl.
  replace (length a + 1 - S n) with (length a - n) by lia.
  rewrite drop_app_le; [done | lia].
Qed.

Lemma slice_last_slice_last {A} n m (a : list A) :
  n ≤ m → slice_last n (slice_last m a) = slice_last n a.
Proof.
  intros Hle. unfold slice_last at 1 3. rewrite slice_last_length.
  unfold slice_last. rewrite drop_drop. f_equal. lia.
Qed.

(** ** The log and its trim *)

Lemma store_length log m :
  length log ≤ 1000 → length (store log m) ≤ 1000.
Proof.
  intros Hle. unfold store. case_decide.
  - rewrite slice_last_length. lia.
  - lia.
Qed.

Lemma retained_le n : retained n ≤ 1000.
Proof.
  unfold retained. case_decide; [lia |].
  pose proof (Nat.mod_upper_bound (n - 1001) 501). lia.
Qed.

Lemma retained_le_length n : retained n ≤ n.
Proof.
  unfold retained. case_decide; [lia |].
  pose proof (Nat.Div0.mod_le (n - 1001) 501). lia.
Qed.

Lemma retained_succ n :
  retained (S n) = if decide (retained n = 1000) then 500 else S (retained n).
Proof.
  unfold retained.
  destruct (decide (n ≤ 1000)) as [Hn | Hn].
  - destruct (decide (S n ≤ 1000)).
    + case_decide; [lia | done].
    + assert (n = 1000) as -> by lia. simpl. done.
  - destruct (decide (S n ≤ 1000)); [lia |].
    replace (S n - 1001) with (S (n - 1001)) by lia.
    pose proof (Nat.mod_upper_bound (n - 1001) 501 ltac:(lia)) as Hlt.
    pose proof (Nat.div_mod_eq (n - 1001) 501) as Hdm.
    destruct (decide (500 + (n - 1001) mod 501 = 1000)) as [Hfull | Hfree].
    + assert (Hmod : (n - 1001) mod 501 = 500) by lia.
      assert (Hnext : S (n - 1001) = 0 + S ((n - 1001) / 501) * 501) by lia.
      rewrite Hnext, Nat.Div0.mod_add. done.
    + assert (Hnext : S (n - 1001)
                      = S ((n - 1001) mod 501) + (n - 1001) / 501 * 501)
        by lia.
      rewrite Hnext, Nat.Div0.mod_add, Nat.mod_small by lia. lia.
Qed.

(** Folding [store] over the accepted messages of an empty room keeps the
    most recent [retained] of them. *)
Lemma foldl_store (msgs : list Message) :
  foldl store [] msgs = slice_last (retained (length msgs)) msgs.
Proof.
  induction msgs as [| m msgs IH] using rev_ind.
  - done.
  - rewrite foldl_app. simpl. rewrite IH.
    rewrite length_app. simpl.
    replace (length msgs + 1) with (S (length msgs)) by lia.
    rewrite retained_succ.
    pose proof (retained_le (length msgs)) as Hcap.
    pose proof (retained_le_length (length msgs)) as Hlen.
    unfold store. rewrite length_app, slice_last_length. simpl.
    case_decide as Hfull.
    + rewrite decide_True by lia.
      rewrite <- (slice_last_snoc (retained (length msgs))).
      apply slice_last_slice_last. lia.
    + rewrite decide_False by lia.
      symmetry. apply slice_last_snoc.
Qed.

(** ** Handlers and the cap *)

Lemma capped_insert (s : state) k r us :
  log_capped s → length (messages r) ≤ 1000 →
  log_capped {| st_users := us; st_rooms := <[k := r]> (st_rooms s) |}.
Proof.
  intros Hs Hr k' r'. simpl. rewrite lookup_insert.
  case_decide; [naive_solver | apply Hs].
Qed.

Lemma leave_each_capped (e : env) (u : User) (sid : jsstring)
    (names : list jsstring) (rs : gmap jsstring Room) :
  (∀ k r, rs !! k = Some r → length (messages r) ≤ 1000) →
  ∀ (k : jsstring) (r : Room),
    (leave_each e u sid names rs).1 !! k = Some r →
    length (messages r) ≤ 1000.
Proof.
  revert rs. induction names as [| n names IH]; intros rs Hrs; [done |].
  simpl. destruct (rs !! n) as [room |] eqn:Hn; [| by apply IH].
  destruct (leave_each e u sid names _) as [rs' out] eqn:Hrest. simpl.
  change rs' with (rs', out).1. rewrite <- Hrest. apply IH.
  intros k r. rewrite lookup_insert. case_decide; [| apply Hrs].
  intros [= <-]. simpl. by eapply Hrs.
Qed.

Lemma handle_capped e s sid q :
  log_capped s → log_capped (handle e s sid q).1.
Proof.
  intros Hs. destruct q as [uname | rn | rm msg | | rn |]; simpl.
  - done.
  - unfold join_room. destruct rn as [rn | ?]; [| done].
    destruct (negb (truthy rn) || negb (truthy (trim rn))); [done |].
    destruct (st_users s !! sid) as [u |]; [| done]. simpl.
    apply capped_insert; [done |]. simpl.
    destruct (st_rooms s !! trim rn) as [r |] eqn:Hr; [| simpl; lia].
    by eapply Hs.
  - unfold send_message. destruct msg as [text | ?]; [| done].
    destruct (negb (truthy rm) || negb (truthy text)); [done |].
    destruct (st_users s !! sid) as [u |]; [| done].
    destruct (st_rooms s !! rm) as [r |] eqn:Hr; [| done].
    case_decide; [| done]. case_decide; [done |]. simpl.
    apply capped_insert; [done |]. simpl.
    apply store_length. by eapply Hs.
  - done.
  - unfold leave_room.
    destruct (st_rooms s !! rn) as [r |] eqn:Hr; [| done].
    destruct (st_users s !! sid) as [u |]; [| done]. simpl.
    apply capped_insert; [done |]. simpl. by eapply Hs.
  - unfold disconnect. destruct (st_users s !! sid) as [u |]; [| done].
    destruct (leave_each e u sid (rooms u) (st_rooms s)) as [rs out] eqn:Hl.
    intros k r. simpl. change rs with (rs, out).1. rewrite <- Hl.
    by apply leave_each_capped.
Qed.

Lemma run_cons e sid q rest s :
  (run s ((e, sid, q) :: rest)).1 = (run (handle e s sid q).1 rest).1.
Proof.
  simpl. destruct (handle e s sid q) as [s1 out1]. simpl.
  by destruct (run s1 rest).
Qed.

Lemma run_capped evs s : log_capped s → log_capped (run s evs).1.
Proof.
  revert s. induction evs as [| [[e sid] q] evs IH]; intros s Hs; [done |].
  rewrite run_cons. by apply IH, handle_capped.
Qed.

Lemma trim_nil_inv text : trim text ≠ [] → truthy text = true.
Proof. by destruct text. Qed.

(** A run of accepted messages: the member set of the room and the name of
    the sender stay, the log is folded through [store]. *)
Lemma run_sends sid room script :
  truthy room = true →
  Forall (λ et, trim et.2 ≠ []) script →
  ∀ s u r,
    st_users s !! sid = Some u → st_rooms s !! room = Some r →
    sid ∈ users r →
    ∃ u' r',
      st_users (run s (sends sid room script)).1 !! sid = Some u' ∧
      username u' = username u ∧
      st_rooms (run s (sends sid room script)).1 !! room = Some r' ∧
      users r' = users r ∧
      messages r' = foldl store (messages r) (sent u sid room script).
Proof.
  intros Hroom Hscript.
  induction Hscript as [| [e text] script Htext _ IH]; intros s u r Hu Hr Hin.
  - exists u, r. done.
  - unfold sends. rewrite fmap_cons. fold (sends sid room script).
    rewrite run_cons. simpl in Htext.
    assert (Hstep : handle e s sid (SendMessage room (VString text)) =
      ({| st_users := <[sid := with_lastActivity u (now_activity e)]>
                        (st_users s);
          st_rooms :=
            <[room := with_messages r
                        (store (messages r)
                           (messageData e u sid room (trim text)))]>
              (st_rooms s) |},
       [(ToRoom room, receive_message (messageData e u sid room (trim text)))])).
    { simpl. unfold send_message.
      rewrite Hroom, (trim_nil_inv _ Htext), Hu, Hr. simpl.
      rewrite decide_True by done.
      rewrite decide_False; [done |]. by destruct (trim text). }
    pose proof (IH (handle e s sid (SendMessage room (VString text))).1
                  (with_lastActivity u (now_activity e))
                  (with_messages r
                     (store (messages r)
                        (messageData e u sid room (trim text))))) as IH'.
    rewrite Hstep in IH' |- *. simpl in IH' |- *.
    destruct IH' as (u' & r' & Hu' & Hname & Hr' & Husers & Hlog);
      [apply lookup_insert_eq | apply lookup_insert_eq | done |].
    exists u', r'. by split_and!.
Qed.

(** C1, for [backend/server.js]: every handler keeps every log at 1000
    messages or fewer.  In a room whose log was empty, after 1001 + k
    accepted messages of one member (k ≤ 500) the log holds exactly the
    most recent 500 + k of them: 500 after the 1001st, 501 after the
    1002nd, no further trim up to the 1501st; the 1502nd trims to 500
    again. *)
Theorem log_hard_cap_soft_trim :
  log_capped initial ∧
  (∀ e s sid q, log_capped s → log_capped (handle e s sid q).1) ∧
  (∀ s sid room u r script,
     truthy room = true →
     st_users s !! sid = Some u → st_rooms s !! room = Some r →
     sid ∈ users r → messages r = [] →
     Forall (λ et, trim et.2 ≠ []) script →
     ∃ r',
       st_rooms (run s (sends sid room script)).1 !! room = Some r' ∧
       (∀ k, k ≤ 500 → length script = 1001 + k →
          messages r' = slice_last (500 + k) (sent u sid room script) ∧
          length (messages r') = 500 + k) ∧
       (length script = 1502 →
          messages r' = slice_last 500 (sent u sid room script) ∧
          length (messages r') = 500)).
Proof.
  split_and!.
  - intros k r. simpl. by rewrite lookup_empty.
  - intros. by apply handle_capped.
  - intros s sid room u r script Hroom Hu Hr Hin Hempty Hscript.
    destruct (run_sends sid room script Hroom Hscript s u r Hu Hr Hin)
      as (u' & r' & _ & _ & Hr' & _ & Hlog).
    exists r'. split; [done |].
    rewrite Hempty, foldl_store in Hlog.
    assert (Hlen : length (sent u sid room script) = length script)
      by apply length_fmap.
    rewrite Hlen in Hlog. rewrite Hlog. split.
    + intros k Hk Hn. rewrite Hn.
      assert (Hret : retained (1001 + k) = 500 + k).
      { unfold retained. rewrite decide_False by lia.
        replace (1001 + k - 1001) with k by lia.
        rewrite Nat.mod_small by lia. done. }
      rewrite Hret. split; [done |].
      rewrite slice_last_length, Hlen, Hn. lia.
    + intros Hn. rewrite Hn.
      assert (Hret : retained 1502 = 500) by (vm_compute; done).
      rewrite Hret. split; [done |].
      rewrite slice_last_length, Hlen, Hn. lia.
Qed.

Lemma log_hard_cap_soft_trim_witness :
  ∃ r',
    st_rooms (run lobby_state
                (sends (u16 "s1") (u16 "lobby")
                   (replicate 1001 (e0, u16 "hi")))).1 !! u16 "lobby"
      = Some r' ∧
    length (messages r') = 500.
Proof.
  destruct log_hard_cap_soft_trim as (_ & _ & Hsends).
  assert (∃ u, st_users lobby_state !! u16 "s1" = Some u) as [u Hu]
    by (eexists; vm_compute; reflexivity).
  assert (∃ r, st_rooms lobby_state !! u16 "lobby" = Some r
               ∧ u16 "s1" ∈ users r ∧ messages r = [])
    as (r & Hr & Hin & Hempty).
  { exists {| name := u16 "lobby"; users := {[u16 "s1"]}; messages := [];
              createdAt := iso e0 |}.
    split; [vm_compute; reflexivity |].
    split; [| reflexivity]. simpl. by apply elem_of_singleton. }
  destruct (Hsends lobby_state (u16 "s1") (u16 "lobby") u r
              (replicate 1001 (e0, u16 "hi")))
    as (r' & Hr' & Htrim & _); try assumption.
  - reflexivity.
  - apply Forall_replicate. vm_compute. discriminate.
  - exists r'. split; [exact Hr' |].
    apply (Htrim 0); [lia | apply length_replicate].
Defined.

(** ** Validation of [send_message] *)

(** C4, as [send_message] of [backend/server.js] does it: a missing room or
    a missing, empty or non-string message is answered with a validation
    error before anything else; otherwise the handler answers
    NotRegistered, RoomNotFound or NotMember, in this order; and a message
    of a member that is empty after trimming is dropped: no event is
    emitted and the state, the log of the room with it, is unchanged. *)
Theorem send_message_checks (e : env) (s : state) (sid room : jsstring)
    (msg : jsval) :
  ((truthy room = false ∨ truthy_val msg = false ∨ ∃ b, msg = VOther b) →
   send_message e s sid room msg = (s, [(ToSocket sid, error InvalidMessage)]))
  ∧
  (∀ text, msg = VString text → truthy room = true → truthy text = true →
     (st_users s !! sid = None →
      send_message e s sid room msg
      = (s, [(ToSocket sid, error NotRegistered)])) ∧
     (is_Some (st_users s !! sid) → st_rooms s !! room = None →
      send_message e s sid room msg
      = (s, [(ToSocket sid, error RoomNotFound)])) ∧
     (∀ r, is_Some (st_users s !! sid) → st_rooms s !! room = Some r →
        sid ∉ users r →
        send_message e s sid room msg
        = (s, [(ToSocket sid, error NotMember)])) ∧
     (∀ r, is_Some (st_users s !! sid) → st_rooms s !! room = Some r →
        sid ∈ users r → trim text = [] →
        send_message e s sid room msg = (s, []))).
Proof.
  split.
  - intros [Hroom | [Hmsg | [b ->]]]; [| | done].
    + destruct msg as [text |]; [| done]. simpl. by rewrite Hroom.
    + destruct msg as [text |]; [| done]. simpl in *. rewrite Hmsg.
      by rewrite orb_true_r.
  - intros text -> Hroom Htext. unfold send_message.
    rewrite Hroom, Htext. simpl. split_and!.
    + by intros ->.
    + by intros [u ->] ->.
    + intros r [u ->] -> Hout. by rewrite decide_False.
    + intros r [u ->] -> Hin Hempty. rewrite decide_True by done.
      rewrite Hempty. done.
Qed.

Lemma send_message_checks_witness :
  send_message e0 lobby_state (u16 "s1") (u16 "lobby") (VString (u16 "   "))
  = (lobby_state, []).
Proof.
  destruct (send_message_checks e0 lobby_state (u16 "s1") (u16 "lobby")
              (VString (u16 "   "))) as [_ Hchecks].
  destruct (Hchecks (u16 "   ")) as (_ & _ & _ & Hdrop);
    [reflexivity | reflexivity | reflexivity |].
  apply (Hdrop {| name := u16 "lobby"; users := {[u16 "s1"]};
                  messages := []; createdAt := iso e0 |}).
  - eexists. vm_compute. reflexivity.
  - vm_compute. reflexivity.
  - simpl. by apply elem_of_singleton.
  - reflexivity.
Defined.

(** In [backend/server.js] the empty text is empty after trimming, yet the
    member who sends it is answered with an error; and a socket that is
    not registered is answered with the validation error, not with
    NotRegistered, when the room is missing. *)
Lemma empty_message_is_an_error :
  trim [] = [] ∧
  send_message e0 lobby_state (u16 "s1") (u16 "lobby") (VString [])
  = (lobby_state, [(ToSocket (u16 "s1"), error InvalidMessage)]) ∧
  st_users lobby_state !! u16 "s2" = None ∧
  send_message e0 lobby_state (u16 "s2") [] (VString (u16 "hello"))
  = (lobby_state, [(ToSocket (u16 "s2"), error InvalidMessage)]).
Proof. split_and!; reflexivity. Qed.

(** ** Membership *)

Lemma elem_of_set_add (x y : jsstring) (l : list jsstring) :
  y ∈ set_add x l ↔ y = x ∨ y ∈ l.
Proof.
  unfold set_add. destruct (decide (x ∈ l)) as [Hin | Hout].
  - split; [by right |]. by intros [-> |].
  - rewrite elem_of_app, list_elem_of_singleton. tauto.
Qed.



(** ** Registration and disconnection *)

(** C10: [register_user] on a socket stores a record whose set of rooms is
    empty and leaves the map of rooms as it is, so the socket stays in the
    member set of every room it had joined; a [disconnect] that follows
    walks the empty set: it changes no room, emits no event at all, and
    removes the record. *)
Theorem register_again_forgets_rooms (e e' : env) (s : state)
    (sid uname : jsstring) :
  let s1 := (register_user e s sid uname).1 in
  let s2 := (disconnect e' s1 sid).1 in
  st_rooms s1 = st_rooms s ∧
  (∃ u, st_users s1 !! sid = Some u ∧ rooms u = []) ∧
  st_rooms s2 = st_rooms s ∧
  (disconnect e' s1 sid).2 = [] ∧
  st_users s2 !! sid = None ∧
  (∀ (k : jsstring) (r : Room),
     is_Some (st_users s !! sid) → st_rooms s !! k = Some r →
     sid ∈ users r →
     st_rooms s1 !! k = Some r ∧ st_rooms s2 !! k = Some r).
Proof.
  simpl. unfold disconnect. simpl. rewrite lookup_insert_eq. simpl.
  split_and!; try done.
  - eexists. done.
  - apply lookup_delete_eq.
Qed.

Lemma register_again_forgets_rooms_witness :
  ∃ r,
    st_rooms (disconnect e0 registered_again (u16 "s2")).1 !! u16 "a"
    = Some r ∧ u16 "s2" ∈ users r.
Proof.
  destruct (register_again_forgets_rooms e0 e0 two_rooms (u16 "s2")
              (u16 "bob")) as (_ & _ & _ & _ & _ & Hstay).
  destruct (Hstay (u16 "a")
              {| name := u16 "a"; users := {[u16 "s1"; u16 "s2"]};
                 messages := []; createdAt := iso e0 |}) as [_ Hafter].
  - eexists. vm_compute. reflexivity.
  - vm_compute. reflexivity.
  - simpl. apply elem_of_union_r. by apply elem_of_singleton.
  - eexists. split; [exact Hafter |].
    simpl. apply elem_of_union_r. by apply elem_of_singleton.
Defined.

(** C3 at the input that breaks it.  [s2] is a member of rooms [a] and [b]
    and has registered twice.  Its [disconnect] removes it from the
    registry, but it stays in the member sets of both rooms, each still of
    size 2, and no [user_left] is emitted. *)
Theorem disconnect_after_second_register :
  (∃ a b,
     st_rooms registered_again !! u16 "a" = Some a ∧
     st_rooms registered_again !! u16 "b" = Some b ∧
     u16 "s2" ∈ users a ∧ u16 "s2" ∈ users b) ∧
  st_users (disconnect e0 registered_again (u16 "s2")).1 !! u16 "s2" = None ∧
  (∃ a b,
     st_rooms (disconnect e0 registered_again (u16 "s2")).1 !! u16 "a"
     = Some a ∧
     st_rooms (disconnect e0 registered_again (u16 "s2")).1 !! u16 "b"
     = Some b ∧
     u16 "s2" ∈ users a ∧ size (users a) = 2 ∧
     u16 "s2" ∈ users b ∧ size (users b) = 2) ∧
  user_left_events (disconnect e0 registered_again (u16 "s2")).2 = [].
Proof.
  pose (a := {| name := u16 "a"; users := {[u16 "s1"; u16 "s2"]};
                messages := []; createdAt := iso e0 |}).
  pose (b := {| name := u16 "b"; users := {[u16 "s1"; u16 "s2"]};
                messages := []; createdAt := iso e0 |}).
  assert (Hin : u16 "s2" ∈ ({[u16 "s1"; u16 "s2"]} : gset jsstring))
    by (apply elem_of_union_r; by apply elem_of_singleton).
  assert (Hsize : size ({[u16 "s1"; u16 "s2"]} : gset jsstring) = 2)
    by (vm_compute; reflexivity).
  split_and!.
  - exists a, b. split_and!; try done; vm_compute; reflexivity.
  - vm_compute. reflexivity.
  - exists a, b. split_and!; try done; vm_compute; reflexivity.
  - vm_compute. reflexivity.
Qed.

(** Without the second registration the same disconnect does what C3
    says: one [user_left] for [a] and one for [b], each with the count of
    the room taken down from 2 to 1, and [s2] is in neither member set. *)
Lemma disconnect_two_rooms :
  disconnect e0 two_rooms (u16 "s2") =
  ({| st_users := delete (u16 "s2") (st_users two_rooms);
      st_rooms :=
        <[u16 "b" := {| name := u16 "b"; users := {[u16 "s1"]};
                        messages := []; createdAt := iso e0 |}]>
          (<[u16 "a" := {| name := u16 "a"; users := {[u16 "s1"]};
                           messages := []; createdAt := iso e0 |}]>
             (st_rooms two_rooms)) |},
   [ (ToRoomExcept (u16 "a") (u16 "s2"),
      user_left (u16 "a") (u16 "bob") (u16 "s2") (iso e0) 1);
     (ToRoomExcept (u16 "b") (u16 "s2"),
      user_left (u16 "b") (u16 "bob") (u16 "s2") (iso e0) 1) ]).
Proof. vm_compute. reflexivity. Qed.

(** ** Message ids *)

Lemma message_id_lt (t' t : N) (x y : jsstring) :
  (t' < t)%N → length (decimal t') = length (decimal t) →
  str_lt (message_id t' x) (message_id t y) = true.
Proof.
  intros Hlt Hlen. unfold message_id.
  destruct (decimal_sound t') as [Hv' Hd'].
  destruct (decimal_sound t) as [Hv Hd].
  apply str_lt_digits; [done | done | done |]. by rewrite Hv', Hv.
Qed.

Lemma ids_increasing_snoc (log : list Message) (m : Message) :
  ids_increasing log →
  Forall (λ m', str_lt (id m') (id m) = true) log →
  ids_increasing (log ++ [m]).
Proof.
  intros Hlog Hall i j mi mj Hij Hi Hj.
  pose proof (lookup_lt_Some _ _ _ Hj) as Hjlen.
  rewrite length_app in Hjlen. simpl in Hjlen.
  rewrite lookup_app_l in Hi by lia.
  destruct (decide (j < length log)) as [Hin | Hlast].
  - rewrite lookup_app_l in Hj by done. by apply (Hlog i j mi mj).
  - rewrite lookup_app_r in Hj by lia.
    replace (j - length log) with 0 in Hj by lia. injection Hj as <-.
    rewrite Forall_forall in Hall. apply Hall.
    by eapply list_elem_of_lookup_2.
Qed.

Lemma ids_increasing_slice (n : nat) (log : list Message) :
  ids_increasing log → ids_increasing (slice_last n log).
Proof.
  intros Hlog i j mi mj Hij. unfold slice_last. rewrite !lookup_drop.
  apply Hlog. lia.
Qed.

Lemma ids_increasing_store (log : list Message) (m : Message) :
  ids_increasing log →
  Forall (λ m', str_lt (id m') (id m) = true) log →
  ids_increasing (store log m).
Proof.
  intros Hlog Hall. unfold store. case_decide.
  - by apply ids_increasing_slice, ids_increasing_snoc.
  - by apply ids_increasing_snoc.
Qed.

Lemma str_lt_prefix (p a b : jsstring) :
  str_lt (p ++ a) (p ++ b) = str_lt a b.
Proof.
  induction p as [| x p IH]; [done |]. simpl.
  by rewrite N.ltb_irrefl, N.eqb_refl.
Qed.

Lemma message_id_same_tick (t : N) (x y : jsstring) :
  str_lt (message_id t x) (message_id t y) = str_lt x y.
Proof. unfold message_id. by rewrite !str_lt_prefix. Qed.

(** C5, as far as the clock carries it.  An accepted [send_message] stores
    a message with the id [Date.now() + '-' + suffix].  When every id in
    the log was built at an earlier clock reading of the same decimal
    width, the new id is greater than every id in the log, and a log whose
    ids were increasing is increasing after the [push] and the trim.
    Against a message of the log built at the same clock reading, the new
    id is greater exactly when its suffix is greater than the suffix of
    that message. *)
Theorem ids_increase_with_clock (e : env) (s : state)
    (sid room text : jsstring) (u : User) (r : Room) :
  truthy room = true → trim text ≠ [] →
  st_users s !! sid = Some u → st_rooms s !! room = Some r →
  sid ∈ users r →
  ∃ r' m,
    st_rooms (send_message e s sid room (VString text)).1 !! room = Some r' ∧
    messages r' = store (messages r) m ∧
    id m = message_id (now e) (rand36 e) ∧
    (Forall (built_before (now e)) (messages r) →
     Forall (λ m', str_lt (id m') (id m) = true) (messages r) ∧
     (ids_increasing (messages r) → ids_increasing (messages r'))) ∧
    (∀ m' suffix, m' ∈ messages r →
       id m' = message_id (now e) suffix →
       str_lt (id m') (id m) = str_lt suffix (rand36 e)).
Proof.
  intros Hroom Htext Hu Hr Hin.
  unfold send_message.
  rewrite Hroom, (trim_nil_inv _ Htext), Hu, Hr. simpl.
  rewrite decide_True by done.
  rewrite decide_False by by destruct (trim text).
  simpl. rewrite lookup_insert_eq.
  eexists _, _. split_and!; [done | done | done | |].
  - intros Hbefore.
    assert (Hall : Forall (λ m', str_lt (id m')
                                   (message_id (now e) (rand36 e)) = true)
                     (messages r)).
    { eapply Forall_impl; [exact Hbefore |].
      intros m' (t' & sfx & -> & Hlt & Hlen). by apply message_id_lt. }
    split; [done |]. intros Hinc. simpl. by apply ids_increasing_store.
  - intros m' suffix _ ->. simpl. apply message_id_same_tick.
Qed.

Lemma ids_increase_with_clock_witness :
  (∃ r r' m,
     st_rooms burst !! u16 "lobby" = Some r ∧
     st_rooms
       (send_message (at_time 1700000000001 (u16 "0b1c2d3e4")) burst
          (u16 "s1") (u16 "lobby") (VString (u16 "three"))).1 !! u16 "lobby"
     = Some r' ∧
     messages r' = messages r ++ [m] ∧
     Forall (λ m', str_lt (id m') (id m) = true) (messages r)) ∧
  str_lt (message_id 1700000000000 (u16 "z5k2m9q1x"))
    (message_id 1700000000000 (u16 "a7c3e8g0b")) = false.
Proof.
  pose (m1 := {| id := message_id 1700000000000 (u16 "z5k2m9q1x");
                 user := u16 "ann"; userId := u16 "s1";
                 message := u16 "one"; room := u16 "lobby";
                 timestamp := iso e0; serverTime := 1700000000000 |}).
  pose (m2 := {| id := message_id 1700000000000 (u16 "a7c3e8g0b");
                 user := u16 "ann"; userId := u16 "s1";
                 message := u16 "two"; room := u16 "lobby";
                 timestamp := iso e0; serverTime := 1700000000000 |}).
  pose (r := {| name := u16 "lobby"; users := {[u16 "s1"]};
                messages := [m1; m2]; createdAt := iso e0 |}).
  pose (r1 := {| name := u16 "lobby"; users := {[u16 "s1"]};
                 messages := [m1]; createdAt := iso e0 |}).
  assert (Hr : st_rooms burst !! u16 "lobby" = Some r)
    by (vm_compute; reflexivity).
  assert (∃ u, st_users burst !! u16 "s1" = Some u) as [u Hu]
    by (eexists; vm_compute; reflexivity).
  assert (∃ u, st_users one_message !! u16 "s1" = Some u) as [u1 Hu1]
    by (eexists; vm_compute; reflexivity).
  split.
  - destruct (ids_increase_with_clock
                (at_time 1700000000001 (u16 "0b1c2d3e4")) burst
                (u16 "s1") (u16 "lobby") (u16 "three") u r)
      as (r' & m & Hr' & Hlog & _ & Hclock & _).
    + reflexivity.
    + vm_compute. discriminate.
    + exact Hu.
    + exact Hr.
    + simpl. by apply elem_of_singleton.
    + destruct Hclock as [Hall _].
      { repeat apply Forall_cons_2; [| | apply Forall_nil_2].
        - exists 1700000000000%N, (u16 "z5k2m9q1x").
          split; [reflexivity |]. split; [reflexivity |].
          vm_compute. reflexivity.
        - exists 1700000000000%N, (u16 "a7c3e8g0b").
          split; [reflexivity |]. split; [reflexivity |].
          vm_compute. reflexivity. }
      exists r, r', m. split_and!; [exact Hr | exact Hr' | | exact Hall].
      rewrite Hlog. unfold store. simpl. reflexivity.
  - destruct (ids_increase_with_clock
                (at_time 1700000000000 (u16 "a7c3e8g0b")) one_message
                (u16 "s1") (u16 "lobby") (u16 "two") u1 r1)
      as (r' & m & _ & _ & Hid & _ & Hsame).
    + reflexivity.
    + vm_compute. discriminate.
    + exact Hu1.
    + vm_compute. reflexivity.
    + simpl. by apply elem_of_singleton.
    + pose proof (Hsame m1 (u16 "z5k2m9q1x")
                    ltac:(apply list_elem_of_here) eq_refl) as Hcmp.
      rewrite Hid in Hcmp. exact Hcmp.
Defined.

(** Within one millisecond the order of two ids of [backend/server.js] is
    the order of the random suffixes.  After the two messages of [burst]
    the log of [lobby] holds them in the order of arrival, and the id of the
    second is smaller than the id of the first. *)
Lemma same_millisecond_ids_decrease :
  ∃ r m1 m2,
    st_rooms burst !! u16 "lobby" = Some r ∧
    messages r = [m1; m2] ∧
    message m1 = u16 "one" ∧ message m2 = u16 "two" ∧
    str_lt (id m1) (id m2) = false ∧
    str_lt (id m2) (id m1) = true ∧
    ¬ ids_increasing (messages r).
Proof.
  eexists _, _, _. split; [vm_compute; reflexivity |].
  split; [reflexivity |].
  split; [reflexivity |]. split; [reflexivity |].
  split; [vm_compute; reflexivity |].
  split; [vm_compute; reflexivity |].
  intros Hinc.
  specialize (Hinc 0 1 _ _ ltac:(lia) eq_refl eq_refl).
  vm_compute in Hinc. discriminate.
Qed.

End BackendSpec.

(** * Properties of [server.js] *)

Module PersistSpec.
Import Persist.

(** C1 fails for the [message] handler of [server.js], which only appends:
    after 1001 posts to [general] its log holds 1001 messages. *)
Lemma message_log_exceeds_cap :
  ∃ r, st_rooms (flood 1001) !! u16 "general" = Some r
       ∧ 1000 < length (messages r).
Proof.
  eexists. split; [vm_compute; reflexivity |]. vm_compute. lia.
Qed.


(** ** Posting *)

(** C4 fails on each server.  In [backend/server.js] the empty text of a
    member is answered with an error, and an unregistered socket that names
    no room gets the validation error.  The [message] handler of
    [server.js] drops the message of a socket without a user record with no
    error at all, and takes a text of blanks from a socket that is not in
    the member list of the room: the text is stored and sent to the room.
    [send_message] of the first server of [server.js] does the same for a
    socket that is neither registered nor a member. *)
Lemma send_checks_fail :
  (trim [] = [] ∧
   Backend.send_message e0 Backend.lobby_state (u16 "s1") (u16 "lobby")
     (VString [])
   = (Backend.lobby_state,
      [(ToSocket (u16 "s1"), Backend.error Backend.InvalidMessage)]) ∧
   Backend.st_users Backend.lobby_state !! u16 "s2" = None ∧
   Backend.send_message e0 Backend.lobby_state (u16 "s2") []
     (VString (u16 "hello"))
   = (Backend.lobby_state,
      [(ToSocket (u16 "s2"), Backend.error Backend.InvalidMessage)])) ∧
  (trim (u16 "   ") = [] ∧
   st_users (flood 0) !! u16 "s2" = None ∧
   on_message e0 (flood 0) (u16 "s2") (u16 "general") (u16 "hello")
   = (flood 0, []) ∧
   ∃ r m,
     st_rooms (flood 0) !! u16 "random" = Some r ∧ (u16 "s1" ∉ users r) ∧
     messages r = [] ∧
     on_message e0 (flood 0) (u16 "s1") (u16 "random") (u16 "   ")
     = ({| st_rooms := <[u16 "random" := with_messages r [m]]>
                         (st_rooms (flood 0));
           st_users := st_users (flood 0) |},
        [(ToRoom (u16 "random"), message m)]) ∧
     content m = Text (u16 "   ")) ∧
  (let s := (Simple.join_room Simple.initial (u16 "s1") (u16 "lobby")).1 in
   Simple.st_users s !! u16 "s2" = None ∧
   ∃ r m,
     Simple.st_rooms s !! u16 "lobby" = Some r ∧
     (u16 "s2" ∉ Simple.users r) ∧ Simple.messages r = [] ∧
     Simple.send_message e0 s (u16 "s2") (u16 "lobby") (VString (u16 "   "))
     = ({| Simple.st_users := Simple.st_users s;
           Simple.st_rooms :=
             <[u16 "lobby" := {| Simple.name := Simple.name r;
                                 Simple.users := Simple.users r;
                                 Simple.messages := [m] |}]>
               (Simple.st_rooms s) |},
        [(ToRoom (u16 "lobby"), Simple.receive_message m)]) ∧
     Simple.message m = VString (u16 "   ")).
Proof.
  split; [exact BackendSpec.empty_message_is_an_error |].
  split.
  - split_and!; try reflexivity.
    eexists (public_room "Random Talk"), _.
    split_and!; try reflexivity. apply not_elem_of_nil.
  - intros s. split; [reflexivity |].
    exists {| Simple.name := u16 "lobby"; Simple.users := {[u16 "s1"]} ∪ ∅;
              Simple.messages := [] |}.
    eexists. split_and!; try reflexivity.
    simpl. rewrite elem_of_union, elem_of_singleton, elem_of_empty.
    intros [Heq | []]. discriminate.
Qed.

(** C5 fails within one millisecond on each server.  In
    [backend/server.js] the second id of [burst] is smaller than the first,
    as its suffix is.  In [server.js] the id is
    [Date.now() + Math.random()]: the two messages of [same_tick] are in
    the log in the order of arrival, with the same clock reading, and the
    sum of the second is below the sum of the first. *)
Lemma ids_decrease_within_millisecond :
  (∃ r m1 m2,
     Backend.st_rooms Backend.burst !! u16 "lobby" = Some r ∧
     Backend.messages r = [m1; m2] ∧
     Backend.message m1 = u16 "one" ∧ Backend.message m2 = u16 "two" ∧
     str_lt (Backend.id m1) (Backend.id m2) = false ∧
     str_lt (Backend.id m2) (Backend.id m1) = true ∧
     ¬ Backend.ids_increasing (Backend.messages r)) ∧
  (∃ r m1 m2,
     st_rooms same_tick !! u16 "general" = Some r ∧
     messages r = [m1; m2] ∧
     content m1 = Text (u16 "one") ∧ content m2 = Text (u16 "two") ∧
     (id m1).1 = (id m2).1 ∧
     (id_sum (id m2) < id_sum (id m1))%N).
Proof.
  split; [exact BackendSpec.same_millisecond_ids_decrease |].
  eexists _, _, _. split; [vm_compute; reflexivity |].
  split_and!; reflexivity.
Qed.

(** ** Room creation *)

(** C7: [create_room] on an id that is present answers the socket with
    [create_error] "Room already exists" and returns the state it was given:
    name, password hash, creator, members and log of the room are as
    before. *)
Theorem create_room_existing `{Bcrypt} (e : env) (s : state)
    (sid roomId roomName pw creator : jsstring) (r : Room) :
  st_rooms s !! roomId = Some r →
  create_room e s sid roomId roomName pw creator
  = (s, [(ToSocket sid, create_error RoomAlreadyExists)]) ∧
  st_rooms (create_room e s sid roomId roomName pw creator).1 !! roomId
  = Some r.
Proof. intros Hr. unfold create_room. rewrite Hr. done. Qed.

Lemma create_room_existing_witness :
  create_room e0 (boot fresh_disk) (u16 "s1") (u16 "general")
    (u16 "Mine") (u16 "pw") (u16 "ann")
  = (boot fresh_disk, [(ToSocket (u16 "s1"), create_error RoomAlreadyExists)]).
Proof.
  apply (create_room_existing e0 (boot fresh_disk) (u16 "s1")
           (u16 "general") (u16 "Mine") (u16 "pw") (u16 "ann")
           (public_room "General Chat")).
  vm_compute. reflexivity.
Defined.

(** ** The password gate *)

Lemma leave_previous_lookup `{Bcrypt} (s : state) (sid roomId : jsstring)
    (r : Room) :
  st_rooms s !! roomId = Some r →
  ∃ r', (leave_previous s sid).1 !! roomId = Some r' ∧
        name r' = name r ∧ password r' = password r ∧
        creator r' = creator r ∧ messages r' = messages r.
Proof.
  intros Hr. unfold leave_previous.
  destruct (st_users s !! sid) as [u |]; [| by exists r].
  destruct (truthy (currentRoom u)); [| by exists r].
  destruct (st_rooms s !! currentRoom u) as [old |] eqn:Hold; [| by exists r].
  destruct (splice_first sid (users old)) as [us |]; [| by exists r].
  simpl. destruct (decide (currentRoom u = roomId)) as [Heq | Hne].
  - rewrite Heq, lookup_insert_eq. rewrite Heq, Hr in Hold.
    injection Hold as <-. by eexists.
  - rewrite lookup_insert_ne by done. by exists r.
Qed.

(** What the gate does for a room with a stored hash [h]: the join goes
    through exactly when [bcrypt.compare] accepts the supplied password; a
    rejected password is answered with "Incorrect password" and changes
    nothing. *)
Lemma password_gate `{Bcrypt} (s : state) (sid roomId uname pw h : jsstring)
    (r : Room) :
  st_rooms s !! roomId = Some r → password r = Some h → truthy h = true →
  (bcrypt_compare pw h = Some false →
   join_room s sid roomId uname pw
   = (s, [(ToSocket sid, join_error InvalidPassword)])) ∧
  (bcrypt_compare pw h = Some true →
   ∃ r', st_rooms (join_room s sid roomId uname pw).1 !! roomId = Some r'
         ∧ sid ∈ users r').
Proof.
  intros Hr Hpw Hh. unfold join_room, check_password, hasPassword.
  rewrite Hr, Hpw, Hh. simpl. split; intros ->; [done |].
  destruct (leave_previous_lookup s sid roomId r Hr) as (r' & Hr' & _).
  destruct (leave_previous s sid) as [rs out]. simpl in Hr'. rewrite Hr'.
  simpl. rewrite lookup_insert_eq. eexists. split; [done |]. simpl.
  apply elem_of_app. right. by apply list_elem_of_singleton.
Qed.

(** C2 at the input that breaks it.  [create_room] hashes the trimmed
    password, [join_room] hands the password to [bcrypt.compare] as it
    came.  A room created with the password " secret " stores the hash of
    "secret"; when that hash does not match " secret ", the join with the
    very password of the creation is answered with "Incorrect password". *)
Theorem join_with_creation_password_rejected `{Bcrypt} (e : env) (s : state)
    (sid sid' roomId roomName creator uname h : jsstring) :
  st_rooms s !! roomId = None →
  bcrypt_hash (u16 "secret") (salt e) = Some h → truthy h = true →
  bcrypt_compare (u16 " secret ") h = Some false →
  join_room
    (create_room e s sid roomId roomName (u16 " secret ") creator).1
    sid' roomId uname (u16 " secret ")
  = ((create_room e s sid roomId roomName (u16 " secret ") creator).1,
     [(ToSocket sid', join_error InvalidPassword)]).
Proof.
  intros Hfree Hhash Hh Hcmp.
  assert (Hcreated :
    (create_room e s sid roomId roomName (u16 " secret ") creator).1
    = {| st_rooms :=
           <[roomId := {| name := roomName; password := Some h;
                          creator := creator; users := [];
                          messages := [] |}]> (st_rooms s);
         st_users := st_users s |}).
  { unfold create_room. rewrite Hfree.
    change (trim (u16 " secret ")) with (u16 "secret").
    simpl truthy. simpl andb. cbv iota. rewrite Hhash. done. }
  rewrite Hcreated.
  eapply password_gate; [apply lookup_insert_eq | done | done | done].
Qed.

Lemma join_with_creation_password_rejected_witness :
  join_room vault (u16 "s2") (u16 "vault") (u16 "bob") (u16 " secret ")
  = (vault, [(ToSocket (u16 "s2"), join_error InvalidPassword)]).
Proof.
  apply (join_with_creation_password_rejected e0 (boot fresh_disk)
           (u16 "s1") (u16 "s2") (u16 "vault") (u16 "Vault") (u16 "ann")
           (u16 "bob") (plain_hash (u16 "secret") (salt e0)));
    vm_compute; reflexivity.
Defined.

(** ** The history snapshot of a join *)

(** C8, per server.  In [backend/server.js] a successful [join_room] first
    emits [room_history] to the joining socket, with the last 100 messages
    of the log of the room (all of them when there are at most 100).  In
    [server.js] a successful [join_room] emits [room_joined] to the joining
    socket, with the name of the room and the last 50 messages of its
    log. *)
Theorem join_history_snapshot :
  (∀ (e : env) (s : Backend.state) (sid b : jsstring) (u : Backend.User),
     truthy (trim b) = true → Backend.st_users s !! sid = Some u →
     (∃ n rest,
        (Backend.join_room e s sid (VString b)).2
        = (ToSocket sid,
           Backend.room_history (trim b)
             (slice_last 100 (Backend.log_of s (trim b))) n (iso e))
          :: rest) ∧
     (length (Backend.log_of s (trim b)) ≤ 100 →
      slice_last 100 (Backend.log_of s (trim b))
      = Backend.log_of s (trim b))) ∧
  (∀ (B : Bcrypt) (s : state) (sid roomId uname pw : jsstring) (r : Room),
     st_rooms s !! roomId = Some r → check_password r pw = None →
     (ToSocket sid, room_joined roomId (name r) (slice_last 50 (messages r)))
     ∈ (join_room s sid roomId uname pw).2).
Proof.
  split.
  - intros e s sid b u Hb Hu. split.
    + assert (Hraw : truthy b = true) by by destruct b.
      unfold Backend.join_room, Backend.log_of.
      rewrite Hraw, Hb, Hu. simpl.
      destruct (Backend.st_rooms s !! trim b); by eexists _, _.
    + apply BackendSpec.slice_last_all.
  - intros B s sid roomId uname pw r Hr Hpw. unfold join_room.
    rewrite Hr, Hpw.
    destruct (leave_previous_lookup s sid roomId r Hr)
      as (r' & Hr' & Hname & _ & _ & Hlog).
    destruct (leave_previous s sid) as [rs out]. simpl in Hr'.
    rewrite Hr'. simpl. rewrite Hname, Hlog.
    apply elem_of_app. right. apply list_elem_of_here.
Qed.

Lemma join_history_snapshot_witness :
  (ToSocket (u16 "s2"),
   room_joined (u16 "general") (u16 "General Chat")
     (replicate 3
        {| id := (now e0, random e0); username := u16 "ann";
           content := Text (u16 "hi"); time := iso e0;
           timestamp := now_server e0 |}))
  ∈ (join_room (flood 3) (u16 "s2") (u16 "general") (u16 "bob") []).2.
Proof.
  destruct join_history_snapshot as [_ Hpersist].
  apply (Hpersist plain_bcrypt (flood 3) (u16 "s2") (u16 "general")
           (u16 "bob") []
           {| name := u16 "General Chat"; password := None;
              creator := u16 "system"; users := [u16 "s1"];
              messages :=
                replicate 3
                  {| id := (now e0, random e0); username := u16 "ann";
                     content := Text (u16 "hi"); time := iso e0;
                     timestamp := now_server e0 |} |});
    vm_compute; reflexivity.
Defined.

(** C8 fails for [join_room] of [server.js]: with 60 messages in the log,
    the snapshot in [room_joined] holds 50 of them, not the 60 that the
    last 100 would be. *)
Lemma room_joined_holds_fifty :
  ∃ r snapshot,
    st_rooms (flood 60) !! u16 "general" = Some r ∧
    length (messages r) = 60 ∧
    (join_room (flood 60) (u16 "s2") (u16 "general") (u16 "bob") []).2 !! 0
    = Some (ToSocket (u16 "s2"),
            room_joined (u16 "general") (u16 "General Chat") snapshot) ∧
    length snapshot = 50 ∧
    snapshot ≠ slice_last 100 (messages r).
Proof.
  eexists _, _. split_and!; try (vm_compute; reflexivity).
  intros Heq. apply (f_equal length) in Heq. vm_compute in Heq.
  discriminate.
Qed.

(** ** Loading the persisted documents *)

(** When the directory or either document is missing, or either document
    does not parse, [loadData] keeps the rooms it started from and leaves a
    directory with two empty documents. *)
Lemma loadData_fresh (rs : gmap jsstring Room) (d : disk) :
  dataDir d = false ∨
  messagesFile d = Absent ∨ messagesFile d = Corrupt ∨
  roomsFile d = Absent ∨ roomsFile d = Corrupt →
  loadData rs d = (rs, fresh_disk).
Proof.
  unfold loadData. intros [-> | Hdoc]; [done |].
  destruct (dataDir d); [| done].
  destruct Hdoc as [-> | [-> | [-> | ->]]]; try done;
    by destruct (messagesFile d).
Qed.

(** C9 at the input that breaks it.  The disk is the one [saveData] wrote:
    both documents are present and parse, and [messages.json] holds three
    messages for [general].  After [loadData] the log of [general] is
    empty: the entry of [rooms.json], saved with an empty log, has replaced
    the room that had just received the saved messages. *)
Theorem saved_history_lost_on_load :
  (∃ savedMessages savedRooms ms,
     dataDir saved_disk = true ∧
     messagesFile saved_disk = Holds savedMessages ∧
     roomsFile saved_disk = Holds savedRooms ∧
     (u16 "general", Some ms) ∈ savedMessages ∧ length ms = 3 ∧
     ∃ r, merge_messages default_rooms savedMessages !! u16 "general"
          = Some r ∧ messages r = ms) ∧
  (∃ r, (loadData default_rooms saved_disk).1 !! u16 "general" = Some r
        ∧ messages r = []).
Proof.
  split.
  - eexists _, _, _. split; [reflexivity |].
    split; [vm_compute; reflexivity |].
    split; [vm_compute; reflexivity |].
    split.
    { repeat first [apply list_elem_of_here | apply list_elem_of_further]. }
    split; [reflexivity |].
    eexists. split; vm_compute; reflexivity.
  - eexists. split; vm_compute; reflexivity.
Qed.

End PersistSpec.

(** * Further properties of [backend/server.js] *)

Module TrimFacts.

Lemma last_rev {A} (l : list A) : last (rev l) = head l.
Proof. destruct l as [| x l]; [done |]. simpl. apply last_snoc. Qed.

Lemma head_rev {A} (l : list A) : head (rev l) = last l.
Proof. rewrite <- (rev_involutive l) at 2. symmetry. apply last_rev. Qed.

Lemma trimStart_head (s : jsstring) (c : N) :
  head (trimStart s) = Some c → is_whitespace c = false.
Proof.
  induction s as [| d s IH]; [done |]. simpl.
  destruct (is_whitespace d) eqn:Hd; [done |]. by intros [= <-].
Qed.

Lemma trimStart_last (s : jsstring) (c : N) :
  is_whitespace c = false → last (trimStart (s ++ [c])) = Some c.
Proof.
  intros Hc. induction s as [| d s IH]; simpl.
  - by rewrite Hc.
  - destruct (is_whitespace d); [done |].
    change (d :: s ++ [c]) with ((d :: s) ++ [c]). apply last_snoc.
Qed.

Lemma trimEnd_last (s : jsstring) (c : N) :
  last (trimEnd s) = Some c → is_whitespace c = false.
Proof. unfold trimEnd. rewrite last_rev. apply trimStart_head. Qed.

Lemma trimEnd_head (s : jsstring) (c : N) :
  head s = Some c → is_whitespace c = false → head (trimEnd s) = Some c.
Proof.
  destruct s as [| d s]; [done |]. intros [= ->] Hc.
  unfold trimEnd. rewrite head_rev. simpl. by apply trimStart_last.
Qed.

(** What [trim] returns is empty or starts and ends with a character that
    is not a white space. *)
Lemma trim_trimmed (s : jsstring) : trim s ≠ [] → Backend.trimmed (trim s).
Proof.
  intros Hne. split; [done |]. unfold trim in *. split.
  - intros c Hc. destruct (trimStart s) as [| d t] eqn:Hs; [done |].
    assert (Hd : is_whitespace d = false)
      by (apply (trimStart_head s); by rewrite Hs).
    rewrite (trimEnd_head (d :: t) d eq_refl Hd) in Hc. by injection Hc as <-.
  - apply trimEnd_last.
Qed.

End TrimFacts.

Module BackendExtra.
Import Backend TrimFacts.

(** ** The insertion-ordered set of room names *)

Lemma NoDup_set_add (x : jsstring) (l : list jsstring) :
  NoDup l → NoDup (set_add x l).
Proof.
  intros Hl. unfold set_add. destruct (decide (x ∈ l)) as [Hin | Hout].
  - done.
  - apply NoDup_app. split_and!; [done | | apply NoDup_singleton].
    intros y Hy ->%list_elem_of_singleton. done.
Qed.

Lemma elem_of_set_delete (x y : jsstring) (l : list jsstring) :
  y ∈ set_delete x l ↔ y ∈ l ∧ y ≠ x.
Proof. unfold set_delete. rewrite list_elem_of_filter. tauto. Qed.

Lemma NoDup_set_delete (x : jsstring) (l : list jsstring) :
  NoDup l → NoDup (set_delete x l).
Proof. apply NoDup_filter. Qed.

(** ** The loop of [disconnect] *)

Lemma without_without (sid : jsstring) (r : Room) :
  without sid (without sid r) = without sid r.
Proof.
  unfold without, with_users. simpl. f_equal. apply difference_twice_L.
Qed.

Lemma leave_each_lookup (e : env) (u : User) (sid : jsstring)
    (names : list jsstring) :
  ∀ (rs : gmap jsstring Room) (k : jsstring),
    (leave_each e u sid names rs).1 !! k
    = if decide (k ∈ names) then without sid <$> rs !! k else rs !! k.
Proof.
  induction names as [| n names IH]; intros rs k.
  - simpl. destruct (decide (k ∈ [])) as [Hin | _]; [| done].
    by apply not_elem_of_nil in Hin.
  - simpl. destruct (rs !! n) as [room |] eqn:Hn.
    + fold (without sid room).
      destruct (leave_each e u sid names (<[n := without sid room]> rs))
        as [rs' out] eqn:Hrest. simpl.
      change rs' with (rs', out).1. rewrite <- Hrest, IH.
      destruct (decide (k = n)) as [-> | Hne].
      * rewrite lookup_insert_eq, Hn. simpl.
        rewrite (decide_True (P := n ∈ n :: names)) by apply list_elem_of_here.
        rewrite without_without. by case_decide.
      * rewrite lookup_insert_ne by done.
        destruct (decide (k ∈ names)) as [Hin | Hout].
        -- rewrite decide_True; [done | by apply list_elem_of_further].
        -- rewrite decide_False; [done |].
           intros [? | ?]%elem_of_cons; done.
    + rewrite IH. destruct (decide (k = n)) as [-> | Hne].
      * rewrite Hn. simpl. by repeat case_decide.
      * destruct (decide (k ∈ names)) as [Hin | Hout].
        -- rewrite decide_True; [done | by apply list_elem_of_further].
        -- rewrite decide_False; [done |].
           intros [? | ?]%elem_of_cons; done.
Qed.

Lemma leave_each_events (e : env) (u : User) (sid : jsstring)
    (cnt : jsstring → nat) (names : list jsstring) :
  NoDup names →
  ∀ rs : gmap jsstring Room,
    (∀ k, k ∈ names →
       ∃ r, rs !! k = Some r ∧ size (users (without sid r)) = cnt k) →
    (leave_each e u sid names rs).2
    = (λ k, left_event e u sid k (cnt k)) <$> names.
Proof.
  induction 1 as [| n names Hn _ IH]; intros rs Hrs; [done |].
  destruct (Hrs n) as (room & Hroom & Hcnt); [apply list_elem_of_here |].
  simpl. rewrite Hroom. fold (without sid room).
  destruct (leave_each e u sid names (<[n := without sid room]> rs))
    as [rs' out] eqn:Hrest. simpl.
  change out with (rs', out).2. rewrite <- Hrest, IH.
  - unfold left_event at 2. simpl in Hcnt. by rewrite Hcnt.
  - intros k Hk. rewrite lookup_insert_ne by (by intros ->).
    apply Hrs. by apply list_elem_of_further.
Qed.

Lemma size_without (sid : jsstring) (r : Room) :
  sid ∈ users r → size (users (without sid r)) = size (users r) - 1.
Proof.
  intros Hin. simpl. rewrite size_difference, size_singleton; [done |].
  by apply singleton_subseteq_l.
Qed.

(** [disconnect] of a registered socket, in a state where the rooms of the
    user record are rooms the socket is a member of: the record is removed,
    the socket is taken out of each of these rooms and of no other, and the
    events are one [user_left] per room, in the order the rooms were
    joined, each with the member count of the room lowered by one. *)
Theorem disconnect_leaves_every_room (e : env) (s : state) (sid : jsstring)
    (u : User) :
  consistent s → st_users s !! sid = Some u →
  st_users (disconnect e s sid).1 = delete sid (st_users s) ∧
  (∀ k, st_rooms (disconnect e s sid).1 !! k
        = if decide (k ∈ rooms u) then without sid <$> st_rooms s !! k
          else st_rooms s !! k) ∧
  (∀ k, k ∈ rooms u →
        member_count (disconnect e s sid).1 k = member_count s k - 1 ∧
        ∃ r, st_rooms (disconnect e s sid).1 !! k = Some r ∧ sid ∉ users r) ∧
  (disconnect e s sid).2
  = (λ k, left_event e u sid k (member_count s k - 1)) <$> rooms u.
Proof.
  intros Hs Hu. destruct (Hs sid u Hu) as [Hnodup Hmember].
  assert (Hrooms : ∀ k, st_rooms (disconnect e s sid).1 !! k
        = if decide (k ∈ rooms u) then without sid <$> st_rooms s !! k
          else st_rooms s !! k).
  { intros k. unfold disconnect. rewrite Hu.
    destruct (leave_each e u sid (rooms u) (st_rooms s)) as [rs out] eqn:Hl.
    simpl. change rs with (rs, out).1. rewrite <- Hl.
    apply leave_each_lookup. }
  split_and!.
  - unfold disconnect. rewrite Hu.
    by destruct (leave_each e u sid (rooms u) (st_rooms s)).
  - done.
  - intros k Hk. destruct (Hmember k Hk) as (r & Hr & Hin).
    unfold member_count. rewrite Hrooms, decide_True, Hr by done. simpl.
    split.
    + rewrite size_difference, size_singleton; [done |].
      by apply singleton_subseteq_l.
    + eexists. split; [done |]. simpl.
      intros [_ Hne]%elem_of_difference. apply Hne. by apply elem_of_singleton.
  - unfold disconnect. rewrite Hu.
    destruct (leave_each e u sid (rooms u) (st_rooms s)) as [rs out] eqn:Hl.
    simpl. change out with (rs, out).2. rewrite <- Hl.
    apply leave_each_events; [done |].
    intros k Hk. destruct (Hmember k Hk) as (r & Hr & Hin).
    exists r. split; [done |]. unfold member_count. rewrite Hr.
    by apply size_without.
Qed.

(** ** Invariants *)

Lemma handle_consistent (e : env) (s : state) (sid : jsstring)
    (q : request) :
  consistent s → consistent (handle e s sid q).1.
Proof.
  intros Hs. destruct q as [uname | rn | rm msg | | rn |]; simpl.
  - (* register_user *)
    intros sid' u'. simpl. rewrite lookup_insert.
    destruct (decide (sid = sid')) as [<- | Hne].
    + intros [= <-]. simpl. split; [apply NoDup_nil_2 |].
      intros k Hk. by apply not_elem_of_nil in Hk.
    + apply Hs.
  - (* join_room *)
    unfold join_room. destruct rn as [rn | ?]; [| done].
    destruct (negb (truthy rn) || negb (truthy (trim rn))); [done |].
    destruct (st_users s !! sid) as [u |] eqn:Hu; [| done]. simpl.
    destruct (Hs sid u Hu) as [Hnodup Hmember].
    intros sid' u'. simpl. rewrite lookup_insert.
    destruct (decide (sid = sid')) as [<- | Hne].
    + intros [= <-]. simpl. split; [by apply NoDup_set_add |].
      intros k [-> | Hk]%BackendSpec.elem_of_set_add.
      * rewrite lookup_insert_eq. eexists. split; [done |]. simpl.
        by apply elem_of_union_l, elem_of_singleton.
      * destruct (Hmember k Hk) as (r & Hr & Hin).
        destruct (decide (trim rn = k)) as [<- | Hk'].
        -- rewrite lookup_insert_eq, Hr. eexists. split; [done |]. simpl.
           by apply elem_of_union_r.
        -- rewrite lookup_insert_ne by done. by exists r.
    + intros Hu'. destruct (Hs sid' u' Hu') as [Hnodup' Hmember'].
      split; [done |]. intros k Hk.
      destruct (Hmember' k Hk) as (r & Hr & Hin).
      destruct (decide (trim rn = k)) as [<- | Hk'].
      * rewrite lookup_insert_eq, Hr. eexists. split; [done |]. simpl.
        by apply elem_of_union_r.
      * rewrite lookup_insert_ne by done. by exists r.
  - (* send_message *)
    unfold send_message. destruct msg as [text | ?]; [| done].
    destruct (negb (truthy rm) || negb (truthy text)); [done |].
    destruct (st_users s !! sid) as [u |] eqn:Hu; [| done].
    destruct (st_rooms s !! rm) as [r |] eqn:Hr; [| done].
    case_decide; [| done]. case_decide; [done |].
    intros sid' u'. simpl. rewrite lookup_insert.
    assert (Hkeep : ∀ sid'' u'', st_users s !! sid'' = Some u'' →
              ∀ k, k ∈ rooms u'' →
                ∃ r', <[rm := with_messages r
                              (store (messages r)
                                 (messageData e u sid rm (trim text)))]>
                        (st_rooms s) !! k = Some r' ∧ sid'' ∈ users r').
    { intros sid'' u'' Hu'' k Hk.
      destruct (Hs sid'' u'' Hu'') as [_ Hmember].
      destruct (Hmember k Hk) as (r' & Hr' & Hin).
      destruct (decide (rm = k)) as [<- | Hk'].
      - rewrite lookup_insert_eq. eexists. split; [done |]. simpl.
        rewrite Hr in Hr'. by injection Hr' as <-.
      - rewrite lookup_insert_ne by done. by exists r'. }
    destruct (decide (sid = sid')) as [<- | Hne].
    + intros [= <-]. simpl. split; [apply (Hs sid u Hu) |].
      by apply (Hkeep sid u).
    + intros Hu'. split; [apply (Hs sid' u' Hu') |]. by apply (Hkeep sid' u').
  - done.
  - (* leave_room *)
    unfold leave_room.
    destruct (st_rooms s !! rn) as [r |] eqn:Hr; [| done].
    destruct (st_users s !! sid) as [u |] eqn:Hu; [| done].
    intros sid' u'. simpl. rewrite lookup_insert.
    destruct (decide (sid = sid')) as [<- | Hne].
    + intros [= <-]. simpl. destruct (Hs sid u Hu) as [Hnodup Hmember].
      split; [by apply NoDup_set_delete |].
      intros k [Hk Hne]%elem_of_set_delete.
      rewrite lookup_insert_ne by done. by apply Hmember.
    + intros Hu'. destruct (Hs sid' u' Hu') as [Hnodup' Hmember'].
      split; [done |]. intros k Hk.
      destruct (Hmember' k Hk) as (r' & Hr' & Hin).
      destruct (decide (rn = k)) as [<- | Hk'].
      * rewrite lookup_insert_eq. eexists. split; [done |]. simpl.
        rewrite Hr in Hr'. injection Hr' as <-.
        apply elem_of_difference. split; [done |].
        intros ->%elem_of_singleton. done.
      * rewrite lookup_insert_ne by done. by exists r'.
  - (* disconnect *)
    intros sid' u' Hu'.
    assert (Husers : st_users (disconnect e s sid).1 = delete sid (st_users s)).
    { unfold disconnect. destruct (st_users s !! sid) as [u |]; [| done].
      by destruct (leave_each e u sid (rooms u) (st_rooms s)). }
    rewrite Husers in Hu'. apply lookup_delete_Some in Hu' as [Hne Hu'].
    destruct (Hs sid' u' Hu') as [Hnodup' Hmember'].
    split; [done |]. intros k Hk.
    destruct (Hmember' k Hk) as (r' & Hr' & Hin).
    assert (Hstill : sid' ∈ users (without sid r')).
    { simpl. apply elem_of_difference. split; [done |].
      intros ->%elem_of_singleton. done. }
    unfold disconnect. destruct (st_users s !! sid) as [u |] eqn:Hu.
    + destruct (leave_each e u sid (rooms u) (st_rooms s)) as [rs out] eqn:Hl.
      simpl. change rs with (rs, out).1. rewrite <- Hl, leave_each_lookup, Hr'.
      case_decide; eexists; (split; [done |]); done.
    + simpl. by exists r'.
Qed.

Lemma handle_well_named (e : env) (s : state) (sid : jsstring)
    (q : request) :
  well_named s → well_named (handle e s sid q).1.
Proof.
  intros Hs. destruct q as [uname | rn | rm msg | | rn |]; simpl.
  - done.
  - unfold join_room. destruct rn as [rn | ?]; [| done].
    destruct (truthy rn); [| done]. simpl.
    destruct (truthy (trim rn)) eqn:Hrn; [| done]. simpl.
    destruct (st_users s !! sid) as [u |]; [| done].
    intros k r. simpl. rewrite lookup_insert.
    destruct (decide (trim rn = k)) as [<- | Hne]; [| apply Hs].
    intros [= <-]. simpl. split; [| by destruct (trim rn)].
    destruct (st_rooms s !! trim rn) as [r |] eqn:Hr; [| done].
    by apply Hs.
  - unfold send_message. destruct msg as [text | ?]; [| done].
    destruct (negb (truthy rm) || negb (truthy text)); [done |].
    destruct (st_users s !! sid) as [u |]; [| done].
    destruct (st_rooms s !! rm) as [r |] eqn:Hr; [| done].
    case_decide; [| done]. case_decide; [done |].
    intros k r'. simpl. rewrite lookup_insert.
    destruct (decide (rm = k)) as [<- | Hne]; [| apply Hs].
    intros [= <-]. simpl. by apply Hs.
  - done.
  - unfold leave_room.
    destruct (st_rooms s !! rn) as [r |] eqn:Hr; [| done].
    destruct (st_users s !! sid) as [u |]; [| done].
    intros k r'. simpl. rewrite lookup_insert.
    destruct (decide (rn = k)) as [<- | Hne]; [| apply Hs].
    intros [= <-]. simpl. by apply Hs.
  - unfold disconnect. destruct (st_users s !! sid) as [u |]; [| done].
    destruct (leave_each e u sid (rooms u) (st_rooms s)) as [rs out] eqn:Hl.
    intros k r. simpl. change rs with (rs, out).1.
    rewrite <- Hl, leave_each_lookup.
    case_decide; [| apply Hs].
    destruct (st_rooms s !! k) as [r' |] eqn:Hr'; [| done].
    intros [= <-]. simpl. by apply Hs.
Qed.

Lemma elem_of_store (log : list Message) (m x : Message) :
  x ∈ store log m → x ∈ log ∨ x = m.
Proof.
  unfold store, slice_last. intros Hx.
  assert (Hin : x ∈ log ++ [m]).
  { case_decide; [| done]. by eapply subseteq_drop. }
  apply elem_of_app in Hin as [? | ?%list_elem_of_singleton]; tauto.
Qed.

Lemma handle_logs_clean (e : env) (s : state) (sid : jsstring)
    (q : request) :
  logs_clean s → logs_clean (handle e s sid q).1.
Proof.
  intros Hs. destruct q as [uname | rn | rm msg | | rn |]; simpl.
  - done.
  - unfold join_room. destruct rn as [rn | ?]; [| done].
    destruct (negb (truthy rn) || negb (truthy (trim rn))); [done |].
    destruct (st_users s !! sid) as [u |]; [| done].
    intros k r m. simpl. rewrite lookup_insert.
    destruct (decide (trim rn = k)) as [<- | Hne]; [| apply Hs].
    intros [= <-]. simpl.
    destruct (st_rooms s !! trim rn) as [r |] eqn:Hr.
    + by apply Hs.
    + simpl. by intros ?%not_elem_of_nil.
  - unfold send_message. destruct msg as [text | ?]; [| done].
    destruct (negb (truthy rm) || negb (truthy text)); [done |].
    destruct (st_users s !! sid) as [u |]; [| done].
    destruct (st_rooms s !! rm) as [r |] eqn:Hr; [| done].
    case_decide; [| done]. case_decide as Hlen; [done |].
    intros k r' m. simpl. rewrite lookup_insert.
    destruct (decide (rm = k)) as [<- | Hne]; [| apply Hs].
    intros [= <-]. simpl. intros [Hold | ->]%elem_of_store.
    + by apply (Hs rm r).
    + simpl. split; [done |]. apply trim_trimmed.
      by destruct (trim text).
  - done.
  - unfold leave_room.
    destruct (st_rooms s !! rn) as [r |] eqn:Hr; [| done].
    destruct (st_users s !! sid) as [u |]; [| done].
    intros k r' m. simpl. rewrite lookup_insert.
    destruct (decide (rn = k)) as [<- | Hne]; [| apply Hs].
    intros [= <-]. simpl. by apply Hs.
  - unfold disconnect. destruct (st_users s !! sid) as [u |]; [| done].
    destruct (leave_each e u sid (rooms u) (st_rooms s)) as [rs out] eqn:Hl.
    intros k r m. simpl. change rs with (rs, out).1.
    rewrite <- Hl, leave_each_lookup.
    case_decide; [| apply Hs].
    destruct (st_rooms s !! k) as [r' |] eqn:Hr'; [| done].
    intros [= <-]. simpl. by apply Hs.
Qed.

Lemma run_invariants (evs : list (env * jsstring * request)) :
  ∀ s, consistent s ∧ well_named s ∧ logs_clean s →
       consistent (run s evs).1 ∧ well_named (run s evs).1 ∧
       logs_clean (run s evs).1.
Proof.
  induction evs as [| [[e sid] q] evs IH]; intros s Hs; [done |].
  rewrite BackendSpec.run_cons. apply IH.
  destruct Hs as (? & ? & ?).
  split_and!;
    [by apply handle_consistent | by apply handle_well_named
    | by apply handle_logs_clean].
Qed.

Lemma initial_invariants :
  consistent initial ∧ well_named initial ∧ logs_clean initial.
Proof.
  split_and!.
  - intros sid u. simpl. by rewrite lookup_empty.
  - intros k r. simpl. by rewrite lookup_empty.
  - intros k r m. simpl. by rewrite lookup_empty.
Qed.

(** In every state the server reaches from its start: the rooms of a user
    record are distinct rooms that exist and list the socket as a member;
    a room is stored under its own, non-empty name; every stored message
    names its room and carries a non-empty text without white space at
    either end. *)
Theorem reachable_invariants (evs : list (env * jsstring * request)) :
  consistent (run initial evs).1 ∧
  well_named (run initial evs).1 ∧
  logs_clean (run initial evs).1.
Proof. apply run_invariants, initial_invariants. Qed.

(** ** Errors *)

Lemma leave_each_only_left (e : env) (u : User) (sid : jsstring)
    (names : list jsstring) :
  ∀ (rs : gmap jsstring Room) (ev : emit),
    ev ∈ (leave_each e u sid names rs).2 → is_user_left ev.2 = true.
Proof.
  induction names as [| n names IH]; intros rs ev; simpl.
  - by intros ?%not_elem_of_nil.
  - destruct (rs !! n) as [room |]; [| apply IH].
    destruct (leave_each e u sid names _) as [rs' out] eqn:Hrest. simpl.
    intros [-> | Hin]%elem_of_cons; [done |].
    apply (IH (<[n := with_users room (users room ∖ {[sid]})]> rs)).
    by rewrite Hrest.
Qed.

(** An [error] event is the whole answer of the handler: it goes to the
    socket that sent the request, nothing else is emitted, and the state
    is the state before the request. *)
Theorem error_changes_nothing (e : env) (s : state) (sid : jsstring)
    (q : request) (t : target) (text : string) :
  (t, error text) ∈ (handle e s sid q).2 →
  handle e s sid q = (s, [(ToSocket sid, error text)]).
Proof.
  destruct q as [uname | rn | rm msg | | rn |]; simpl.
  - intros [[=] | [[=] | ?%not_elem_of_nil]%elem_of_cons]%elem_of_cons. done.
  - unfold join_room. destruct rn as [rn | ?].
    + destruct (negb (truthy rn) || negb (truthy (trim rn))).
      { by intros [= -> ->]%list_elem_of_singleton. }
      destruct (st_users s !! sid) as [u |].
      * simpl.
        intros [[=] | [[=] | ?%not_elem_of_nil]%elem_of_cons]%elem_of_cons.
        done.
      * by intros [= -> ->]%list_elem_of_singleton.
    + by intros [= -> ->]%list_elem_of_singleton.
  - unfold send_message. destruct msg as [txt | ?].
    + destruct (negb (truthy rm) || negb (truthy txt)).
      { by intros [= -> ->]%list_elem_of_singleton. }
      destruct (st_users s !! sid) as [u |];
        [| by intros [= -> ->]%list_elem_of_singleton].
      destruct (st_rooms s !! rm) as [r |];
        [| by intros [= -> ->]%list_elem_of_singleton].
      case_decide; [| by intros [= -> ->]%list_elem_of_singleton].
      case_decide; [by intros ?%not_elem_of_nil |].
      simpl. by intros [=]%list_elem_of_singleton.
    + by intros [= -> ->]%list_elem_of_singleton.
  - by intros [=]%list_elem_of_singleton.
  - unfold leave_room. destruct (st_rooms s !! rn) as [r |];
      [| by intros ?%not_elem_of_nil].
    destruct (st_users s !! sid) as [u |]; [| by intros ?%not_elem_of_nil].
    simpl. by intros [=]%list_elem_of_singleton.
  - unfold disconnect. destruct (st_users s !! sid) as [u |];
      [| by intros ?%not_elem_of_nil].
    destruct (leave_each e u sid (rooms u) (st_rooms s)) as [rs out] eqn:Hl.
    simpl. intros Hin.
    pose proof (leave_each_only_left e u sid (rooms u) (st_rooms s)
                  (t, error text)) as Hleft.
    rewrite Hl in Hleft. by specialize (Hleft Hin).
Qed.

(** ** Rooms *)

Local Ltac unchanged :=
  simpl; split; [done |];
  let Hk := fresh "Hk" in intros Hk ?; by rewrite Hk.

(** No handler removes a room, and a room appears only through
    [join_room] of a registered socket: the new room is stored under the
    trimmed name, with the joining socket as its only member and an empty
    log. *)
Theorem rooms_are_kept (e : env) (s : state) (sid : jsstring) (q : request)
    (k : jsstring) :
  (is_Some (st_rooms s !! k) → is_Some (st_rooms (handle e s sid q).1 !! k)) ∧
  (st_rooms s !! k = None →
   ∀ r, st_rooms (handle e s sid q).1 !! k = Some r →
     (∃ rn, q = JoinRoom (VString rn) ∧ k = trim rn) ∧
     is_Some (st_users s !! sid) ∧
     r = {| name := k; users := {[sid]}; messages := [];
            createdAt := iso e |}).
Proof.
  destruct q as [uname | rn | rm msg | | rn |]; simpl.
  - unchanged.
  - unfold join_room. destruct rn as [rn | ?];
      [| unchanged].
    destruct (negb (truthy rn) || negb (truthy (trim rn)));
      [unchanged |].
    destruct (st_users s !! sid) as [u |];
      [| unchanged].
    simpl. rewrite lookup_insert.
    destruct (decide (trim rn = k)) as [<- | Hne].
    + split; [done |]. intros Hk r [= <-]. rewrite Hk.
      split_and!; [by exists rn | done |].
      unfold with_users. simpl. f_equal. apply (right_id_L ∅ (∪)).
    + split; [done |]. intros Hk r. by rewrite Hk.
  - unfold send_message. destruct msg as [text | ?];
      [| unchanged].
    destruct (negb (truthy rm) || negb (truthy text));
      [unchanged |].
    destruct (st_users s !! sid) as [u |];
      [| unchanged].
    destruct (st_rooms s !! rm) as [r0 |] eqn:Hr;
      [| unchanged].
    case_decide; [| unchanged].
    case_decide; [unchanged |].
    simpl. rewrite lookup_insert.
    destruct (decide (rm = k)) as [<- | Hne].
    + split; [done |]. intros Hk. by rewrite Hk in Hr.
    + split; [done |]. intros Hk r. by rewrite Hk.
  - unchanged.
  - unfold leave_room.
    destruct (st_rooms s !! rn) as [r0 |] eqn:Hr;
      [| unchanged].
    destruct (st_users s !! sid) as [u |];
      [| unchanged].
    simpl. rewrite lookup_insert.
    destruct (decide (rn = k)) as [<- | Hne].
    + split; [done |]. intros Hk. by rewrite Hk in Hr.
    + split; [done |]. intros Hk r. by rewrite Hk.
  - unfold disconnect. destruct (st_users s !! sid) as [u |];
      [| unchanged].
    destruct (leave_each e u sid (rooms u) (st_rooms s)) as [rs out] eqn:Hl.
    simpl. change rs with (rs, out).1. rewrite <- Hl, leave_each_lookup.
    split.
    + intros [r0 Hr0]. rewrite Hr0. by case_decide.
    + intros Hk r. rewrite Hk. by case_decide.
Qed.

(** ** Joining and leaving *)

Lemma with_users_id (r : Room) : with_users r (users r) = r.
Proof. by destruct r. Qed.

Lemma add_then_delete (sid : jsstring) (X : gset jsstring) :
  sid ∉ X → ({[sid]} ∪ X) ∖ {[sid]} = X.
Proof.
  intros Hout.
  rewrite difference_union_distr_l_L, difference_diag_L, (left_id_L ∅ (∪)).
  by apply difference_disjoint_L, disjoint_singleton_r.
Qed.

(** The count that a successful [join_room] reports, to the joining socket
    in [room_history] and to the others in [user_joined], is the size of
    the member set after the join: one more than before for a new member,
    the same for a socket that was a member already. *)
Theorem join_room_counts (e : env) (s : state) (sid rn : jsstring)
    (u : User) :
  truthy (trim rn) = true → st_users s !! sid = Some u →
  let k := trim rn in
  let s' := (join_room e s sid (VString rn)).1 in
  (join_room e s sid (VString rn)).2
  = [ (ToSocket sid,
       room_history k (slice_last 100 (log_of s k)) (member_count s' k)
         (iso e));
      (ToRoomExcept k sid,
       user_joined k (username u) sid (iso e) (member_count s' k)) ] ∧
  ((∃ r, st_rooms s !! k = Some r ∧ sid ∈ users r) →
   member_count s' k = member_count s k) ∧
  ((∀ r, st_rooms s !! k = Some r → sid ∉ users r) →
   member_count s' k = S (member_count s k)).
Proof.
  intros Hk Hu. assert (Hraw : truthy rn = true) by by destruct rn.
  simpl. unfold join_room, member_count, log_of.
  rewrite Hraw, Hk, Hu. simpl. rewrite lookup_insert_eq. simpl.
  split_and!.
  - by destruct (st_rooms s !! trim rn).
  - intros (r & -> & Hin). f_equal. by apply subseteq_union_1_L, singleton_subseteq_l.
  - intros Hout. destruct (st_rooms s !! trim rn) as [r |] eqn:Hr.
    + rewrite size_union, size_singleton; [done |].
      apply disjoint_singleton_l. by apply Hout.
    + cbn [users]. by rewrite (right_id_L ∅ (∪)), size_singleton.
Qed.

(** Joining a room the socket is already in changes no member set and no
    set of rooms: only [lastActivity] of the user record is written. *)
Theorem join_room_again (e : env) (s : state) (sid rn : jsstring)
    (u : User) (r : Room) :
  truthy (trim rn) = true → st_users s !! sid = Some u →
  st_rooms s !! trim rn = Some r → sid ∈ users r → trim rn ∈ rooms u →
  (join_room e s sid (VString rn)).1
  = {| st_users := <[sid := with_lastActivity u (now e)]> (st_users s);
       st_rooms := st_rooms s |}.
Proof.
  intros Hk Hu Hr Hin Hroom. assert (Hraw : truthy rn = true) by by destruct rn.
  unfold join_room. rewrite Hraw, Hk, Hu, Hr. simpl. f_equal.
  - f_equal. unfold set_add. rewrite decide_True by done. by destruct u.
  - apply insert_id. rewrite Hr. f_equal.
    rewrite (subseteq_union_1_L {[sid]} (users r))
      by (by apply singleton_subseteq_l).
    symmetry. apply with_users_id.
Qed.

(** [leave_room]: without the room or without a user record nothing
    happens and nothing is emitted.  Otherwise the socket is taken out of
    the member set and the room out of the set of the user, and one
    [user_left] goes to the other members with the size of the member set
    after the deletion: one less than before for a member, and unchanged,
    yet still announced, for a socket that was not a member. *)
Theorem leave_room_effect (e : env) (s : state) (sid rn : jsstring) :
  ((st_rooms s !! rn = None ∨ st_users s !! sid = None) →
   leave_room e s sid rn = (s, [])) ∧
  (∀ r u, st_rooms s !! rn = Some r → st_users s !! sid = Some u →
     let s' := (leave_room e s sid rn).1 in
     st_rooms s' = <[rn := without sid r]> (st_rooms s) ∧
     (∃ u', st_users s' !! sid = Some u' ∧ (rn ∉ rooms u') ∧
            ∀ k, k ≠ rn → (k ∈ rooms u' ↔ k ∈ rooms u)) ∧
     (leave_room e s sid rn).2 = [left_event e u sid rn (member_count s' rn)] ∧
     (sid ∈ users r → member_count s' rn = member_count s rn - 1) ∧
     (sid ∉ users r → member_count s' rn = member_count s rn)).
Proof.
  unfold leave_room. split.
  - intros [-> | Hu]; [done |]. rewrite Hu. by destruct (st_rooms s !! rn).
  - intros r u Hr Hu. rewrite Hr, Hu. simpl. unfold member_count. simpl.
    rewrite Hr, !lookup_insert_eq. split_and!.
    + done.
    + eexists. split; [done |]. simpl. split.
      * intros [_ Hne]%elem_of_set_delete. done.
      * intros k Hne. rewrite elem_of_set_delete. tauto.
    + done.
    + intros Hin. by apply (size_without sid r).
    + intros Hout. simpl. f_equal. apply difference_disjoint_L.
      by apply disjoint_singleton_r.
Qed.

(** Joining a room and leaving it again gives back the member sets and the
    set of rooms of the user as they were, when the socket was not a member
    before; a room that the join created stays, with no member. *)
Theorem join_then_leave (e e' : env) (s : state) (sid rn : jsstring)
    (u : User) :
  consistent s → truthy (trim rn) = true → st_users s !! sid = Some u →
  (∀ r, st_rooms s !! trim rn = Some r → sid ∉ users r) →
  let k := trim rn in
  let s1 := (join_room e s sid (VString rn)).1 in
  let s2 := (leave_room e' s1 sid k).1 in
  (∀ r, st_rooms s !! k = Some r → st_rooms s2 !! k = Some r) ∧
  (st_rooms s !! k = None →
   st_rooms s2 !! k
   = Some {| name := k; users := ∅; messages := []; createdAt := iso e |}) ∧
  (∀ k', k' ≠ k → st_rooms s2 !! k' = st_rooms s !! k') ∧
  (∃ u2, st_users s2 !! sid = Some u2 ∧ rooms u2 = rooms u) ∧
  member_count s2 k = member_count s k.
Proof.
  intros Hs Hk Hu Hout. assert (Hraw : truthy rn = true) by by destruct rn.
  assert (Hfresh : trim rn ∉ rooms u).
  { intros Hin. destruct (Hs sid u Hu) as [_ Hmember].
    destruct (Hmember _ Hin) as (r & Hr & Hmem). by apply (Hout r). }
  assert (Hdel : set_delete (trim rn) (set_add (trim rn) (rooms u)) = rooms u).
  { unfold set_add, set_delete. rewrite decide_False by done.
    rewrite filter_app, filter_cons_False, filter_nil, app_nil_r by (by intros []).
    clear -Hfresh. induction (rooms u) as [| x l IH]; [done |].
    apply not_elem_of_cons in Hfresh as [Hx Hl].
    rewrite filter_cons_True by done. f_equal. by apply IH. }
  simpl. unfold join_room. rewrite Hraw, Hk, Hu. simpl.
  unfold leave_room, member_count. cbn [st_rooms st_users fst].
  rewrite !lookup_insert_eq. cbn [st_rooms st_users fst].
  rewrite !lookup_insert_eq. split_and!.
  - intros r Hr. rewrite Hr. f_equal. unfold with_users.
    cbn [users name messages createdAt].
    rewrite add_then_delete by by apply Hout. by destruct r.
  - intros ->. unfold with_users. cbn [users name messages createdAt].
    by rewrite add_then_delete by apply not_elem_of_empty.
  - intros k' Hne. rewrite !lookup_insert_ne by done. done.
  - eexists. split; [done |]. simpl. done.
  - destruct (st_rooms s !! trim rn) as [r |] eqn:Hr.
    + unfold with_users. cbn [users].
      by rewrite add_then_delete by by apply Hout.
    + unfold with_users. cbn [users].
      rewrite add_then_delete by apply not_elem_of_empty. apply size_empty.
Qed.

(** ** Accepted messages *)

Lemma last_store (log : list Message) (m : Message) :
  last (store log m) = Some m.
Proof.
  unfold store. case_decide.
  - change 500 with (S 499). rewrite BackendSpec.slice_last_snoc.
    apply last_snoc.
  - apply last_snoc.
Qed.

(** An accepted [send_message]: one [receive_message] goes to the whole
    room, sender included; the message carries the trimmed text and the
    registered name of the sender, and it is the newest entry of the log of
    the room, trimmed or not.  No member set, no other room and no other
    user record changes. *)
Theorem send_message_accepted (e : env) (s : state)
    (sid rm text : jsstring) (u : User) (r : Room) :
  truthy rm = true → trim text ≠ [] →
  st_users s !! sid = Some u → st_rooms s !! rm = Some r → sid ∈ users r →
  let m := messageData e u sid rm (trim text) in
  let s' := (send_message e s sid rm (VString text)).1 in
  (send_message e s sid rm (VString text)).2
  = [(ToRoom rm, receive_message m)] ∧
  message m = trim text ∧ user m = username u ∧ userId m = sid ∧
  (∃ r', st_rooms s' !! rm = Some r' ∧ last (messages r') = Some m ∧
         users r' = users r ∧ name r' = name r) ∧
  (∀ k, k ≠ rm → st_rooms s' !! k = st_rooms s !! k) ∧
  (∃ u', st_users s' !! sid = Some u' ∧ rooms u' = rooms u ∧
         username u' = username u) ∧
  (∀ x, x ≠ sid → st_users s' !! x = st_users s !! x).
Proof.
  intros Hrm Htext Hu Hr Hin. simpl. unfold send_message.
  rewrite Hrm, (BackendSpec.trim_nil_inv _ Htext), Hu, Hr. simpl.
  rewrite decide_True by done.
  rewrite decide_False by by destruct (trim text).
  simpl. rewrite !lookup_insert_eq. split_and!; try done.
  - eexists. split; [done |]. simpl. split_and!; [apply last_store | done..].
  - intros k Hne. by rewrite lookup_insert_ne.
  - by eexists.
  - intros x Hne. by rewrite lookup_insert_ne.
Qed.

(** ** The list of rooms *)

(** [rooms_list], as [get_rooms] and [register_user] send it, has one
    entry per room, and the entry of a room gives its name, the size of
    its member set and the length of its log. *)
Theorem rooms_list_complete (e : env) (s : state) (sid uname : jsstring) :
  get_rooms s sid = (s, [(ToSocket sid, rooms_list (roomList s))]) ∧
  (register_user e s sid uname).2 !! 1
  = Some (ToSocket sid, rooms_list (roomList s)) ∧
  length (roomList s) = size (st_rooms s) ∧
  (∀ k r, st_rooms s !! k = Some r →
     (name r, member_count s k, length (messages r)) ∈ roomList s) ∧
  (∀ entry, entry ∈ roomList s →
     ∃ k r, st_rooms s !! k = Some r ∧
            entry = (name r, size (users r), length (messages r))).
Proof.
  unfold roomList. split_and!; try done.
  - by rewrite !length_fmap, length_map_to_list.
  - intros k r Hr. unfold member_count. rewrite Hr.
    apply list_elem_of_fmap. exists r. split; [done |].
    apply list_elem_of_fmap. exists (k, r). split; [done |].
    by apply elem_of_map_to_list.
  - intros entry (r & -> & ([k r'] & -> & Hin)%list_elem_of_fmap)%list_elem_of_fmap.
    apply elem_of_map_to_list in Hin. by exists k, r'.
Qed.

(** ** Instances *)

Lemma two_rooms_consistent : consistent two_rooms.
Proof. apply (run_invariants _ initial), initial_invariants. Qed.

Lemma two_rooms_bob :
  st_users two_rooms !! u16 "s2"
  = Some {| username := u16 "bob"; socketId := u16 "s2";
            rooms := [u16 "a"; u16 "b"]; connectedAt := iso e0;
            lastActivity := now e0 |}.
Proof. vm_compute. reflexivity. Qed.

Lemma disconnect_leaves_every_room_witness :
  ∃ u, (disconnect e0 two_rooms (u16 "s2")).2
       = [ left_event e0 u (u16 "s2") (u16 "a") 1;
           left_event e0 u (u16 "s2") (u16 "b") 1 ].
Proof.
  eexists.
  destruct (disconnect_leaves_every_room e0 two_rooms (u16 "s2") _
              two_rooms_consistent two_rooms_bob) as (_ & _ & _ & Hout).
  rewrite Hout. reflexivity.
Defined.

Lemma lobby_consistent : consistent lobby_state.
Proof. apply (run_invariants _ initial), initial_invariants. Qed.

Lemma lobby_ann :
  st_users lobby_state !! u16 "s1"
  = Some {| username := u16 "ann"; socketId := u16 "s1";
            rooms := [u16 "lobby"]; connectedAt := iso e0;
            lastActivity := now e0 |}.
Proof. vm_compute. reflexivity. Qed.

Lemma lobby_room :
  st_rooms lobby_state !! u16 "lobby"
  = Some {| name := u16 "lobby"; users := {[u16 "s1"]}; messages := [];
            createdAt := iso e0 |}.
Proof. vm_compute. reflexivity. Qed.

Lemma join_room_counts_witness :
  member_count (join_room e0 lobby_state (u16 "s1") (VString (u16 "games"))).1
    (u16 "games") = 1.
Proof.
  destruct (join_room_counts e0 lobby_state (u16 "s1") (u16 "games") _
              eq_refl lobby_ann) as (_ & _ & Hnew).
  refine (Hnew _). intros r Hr. vm_compute in Hr. discriminate.
Defined.

Lemma join_room_again_witness :
  st_rooms (join_room e0 lobby_state (u16 "s1") (VString (u16 " lobby "))).1
  = st_rooms lobby_state.
Proof.
  refine (f_equal st_rooms
            (join_room_again e0 lobby_state (u16 "s1") (u16 " lobby ") _ _
               eq_refl lobby_ann lobby_room _ _)).
  - simpl. by apply elem_of_singleton.
  - simpl. apply list_elem_of_here.
Defined.

Lemma leave_room_effect_witness :
  member_count (leave_room e0 lobby_state (u16 "s1") (u16 "lobby")).1
    (u16 "lobby") = 0.
Proof.
  destruct (leave_room_effect e0 lobby_state (u16 "s1") (u16 "lobby"))
    as [_ Hleave].
  destruct (Hleave _ _ lobby_room lobby_ann) as (_ & _ & _ & Hcount & _).
  refine (Hcount _). simpl. by apply elem_of_singleton.
Defined.

Lemma join_then_leave_witness :
  member_count
    (leave_room e0
       (join_room e0 lobby_state (u16 "s1") (VString (u16 "games"))).1
       (u16 "s1") (u16 "games")).1 (u16 "games") = 0.
Proof.
  destruct (join_then_leave e0 e0 lobby_state (u16 "s1") (u16 "games") _
              lobby_consistent eq_refl lobby_ann) as (_ & _ & _ & _ & Hcount).
  - intros r Hr. vm_compute in Hr. discriminate.
  - exact Hcount.
Defined.

Lemma send_message_accepted_witness :
  (send_message e0 lobby_state (u16 "s1") (u16 "lobby")
     (VString (u16 "  hi  "))).2
  = [(ToRoom (u16 "lobby"),
      receive_message
        {| id := message_id (now e0) (rand36 e0); user := u16 "ann";
           userId := u16 "s1"; message := u16 "hi"; room := u16 "lobby";
           timestamp := iso e0; serverTime := now_server e0 |})].
Proof.
  destruct (send_message_accepted e0 lobby_state (u16 "s1") (u16 "lobby")
              (u16 "  hi  ") _ _ eq_refl ltac:(discriminate)
              lobby_ann lobby_room) as (Hout & _).
  - simpl. by apply elem_of_singleton.
  - exact Hout.
Defined.

Lemma error_changes_nothing_witness :
  handle e0 lobby_state (u16 "s2")
    (SendMessage (u16 "lobby") (VString (u16 "hi")))
  = (lobby_state, [(ToSocket (u16 "s2"), error NotRegistered)]).
Proof.
  apply (error_changes_nothing e0 lobby_state (u16 "s2")
           (SendMessage (u16 "lobby") (VString (u16 "hi")))
           (ToSocket (u16 "s2"))).
  vm_compute. apply list_elem_of_here.
Defined.

Lemma rooms_are_kept_witness :
  is_Some (st_rooms (handle e0 lobby_state (u16 "s1") Disconnect).1
             !! u16 "lobby").
Proof.
  apply (rooms_are_kept e0 lobby_state (u16 "s1") Disconnect (u16 "lobby")).
  rewrite lobby_room. by eexists.
Defined.

Lemma rooms_list_complete_witness :
  (u16 "lobby", 1, 0) ∈ roomList lobby_state.
Proof.
  destruct (rooms_list_complete e0 lobby_state (u16 "s1") (u16 "ann"))
    as (_ & _ & _ & Hall & _).
  apply (Hall _ _ lobby_room).
Defined.

End BackendExtra.

(** * Further properties of [server.js] *)

Module PersistExtra.
Import Persist.

(** ** [indexOf] and [splice] *)

Lemma splice_first_None (x : jsstring) (a : list jsstring) :
  splice_first x a = None ↔ x ∉ a.
Proof.
  induction a as [| y a IH]; simpl.
  - split; [intros _; apply not_elem_of_nil | done].
  - destruct (decide (y = x)) as [-> | Hne].
    + split; [done |]. intros Hout. exfalso. apply Hout, list_elem_of_here.
    + rewrite not_elem_of_cons. destruct (splice_first x a).
      * split; [done |]. intros [_ Hout]. by apply IH in Hout.
      * split; [| done]. intros _. split; [done |]. by apply IH.
Qed.

Lemma splice_first_Some (x : jsstring) (a us : list jsstring) :
  splice_first x a = Some us → NoDup a →
  x ∈ a ∧ (x ∉ us) ∧ NoDup us ∧ length a = S (length us) ∧
  ∀ y, y ∈ us ↔ y ∈ a ∧ y ≠ x.
Proof.
  revert us. induction a as [| y a IH]; intros us; simpl; [done |].
  intros Hsp [Hy Ha]%NoDup_cons.
  destruct (decide (y = x)) as [-> | Hne].
  - injection Hsp as <-. split_and!; [apply list_elem_of_here | done..|].
    intros z. rewrite elem_of_cons. split.
    + intros Hz. split; [by right |]. by intros ->.
    + by intros [[-> | Hz] Hzx].
  - destruct (splice_first x a) as [us' |]; [| done]. injection Hsp as <-.
    destruct (IH us' eq_refl Ha) as (Hin & Hout & Hnd & Hlen & Hiff).
    split_and!.
    + by apply list_elem_of_further.
    + rewrite not_elem_of_cons. split; [by intros -> | done].
    + apply NoDup_cons. split; [| done]. rewrite Hiff. tauto.
    + simpl. by rewrite Hlen.
    + intros z. rewrite !elem_of_cons, Hiff. split.
      * intros [-> | [Hz Hzx]]; [split; [by left | by intros ->] | tauto].
      * intros [[-> | Hz] Hzx]; [by left | right; tauto].
Qed.

(** ** The single active room *)

Lemma vacated_absent (s : state) (sid : jsstring) :
  one_room s → (∀ k r, st_rooms s !! k = Some r → sid ∉ users r) →
  vacated s sid (st_rooms s).
Proof.
  intros (_ & Hrooms & _) Hout k.
  destruct (st_rooms s !! k) as [r |] eqn:Hr; constructor.
  split_and!; [done | done | by apply (Hrooms k r) |].
  intros x. split; [| tauto]. intros Hx. split; [done |].
  intros ->. by apply (Hout k r).
Qed.

Lemma leave_previous_vacates (s : state) (sid : jsstring) :
  one_room s → vacated s sid (leave_previous s sid).1.
Proof.
  intros Hs. pose proof Hs as (Hempty & Hrooms & Husers).
  unfold leave_previous.
  destruct (st_users s !! sid) as [u |] eqn:Hu.
  - destruct (Husers sid u Hu) as (r & Hr & Hin).
    assert (Htruthy : truthy (currentRoom u) = true).
    { destruct (currentRoom u); [by rewrite Hempty in Hr | done]. }
    rewrite Htruthy, Hr.
    destruct (Hrooms _ r Hr) as [Hnodup Hmembers].
    destruct (splice_first sid (users r)) as [us |] eqn:Hsp;
      [| by apply splice_first_None in Hsp].
    destruct (splice_first_Some _ _ _ Hsp Hnodup)
      as (_ & Hout & Hnd & _ & Hiff).
    simpl. intros k. rewrite lookup_insert.
    destruct (decide (currentRoom u = k)) as [<- | Hne].
    + rewrite Hr. by constructor.
    + destruct (st_rooms s !! k) as [r' |] eqn:Hr'; constructor.
      split_and!; [done | done | by apply (Hrooms k r') |].
      intros x. split; [| tauto]. intros Hx. split; [done |].
      intros ->. destruct (Hrooms k r' Hr') as [_ Hm].
      destruct (Hm sid Hx) as (u' & Hu' & Hcur).
      rewrite Hu in Hu'. injection Hu' as <-. done.
  - simpl. apply vacated_absent; [done |].
    intros k r Hr Hin. destruct (Hrooms k r Hr) as [_ Hm].
    destruct (Hm sid Hin) as (u & Hu' & _). by rewrite Hu in Hu'.
Qed.

(** What is left to show for the state after a handler, given the vacated
    rooms: the socket is put into room [k] or dropped from the users. *)
Lemma one_room_enter (s : state) (sid k uname : jsstring)
    (rs : gmap jsstring Room) (r : Room) :
  one_room s → vacated s sid rs → rs !! k = Some r →
  one_room {| st_rooms := <[k := with_users r (users r ++ [sid])]> rs;
              st_users := <[sid := {| u_username := uname;
                                      currentRoom := k |}]> (st_users s) |}.
Proof.
  intros (Hempty & Hrooms & Husers) Hrs Hr.
  assert (Hk : k ≠ []).
  { intros ->. specialize (Hrs []). rewrite Hr, Hempty in Hrs.
    inversion Hrs. }
  assert (Hview : ∀ k' r', rs !! k' = Some r' →
            NoDup (users r') ∧ (sid ∉ users r') ∧
            ∀ x, x ∈ users r' →
              ∃ u, st_users s !! x = Some u ∧ currentRoom u = k').
  { intros k' r' Hr'. specialize (Hrs k'). rewrite Hr' in Hrs.
    inversion Hrs as [? r0 (_ & _ & Hnd & Hiff) Heq1 Heq2 |]. subst.
    split_and!; [done | rewrite Hiff; tauto |].
    intros x [Hx _]%Hiff. by apply (Hrooms k' r0). }
  split_and!; simpl.
  - rewrite lookup_insert_ne by done. specialize (Hrs []).
    rewrite Hempty in Hrs. by inversion Hrs.
  - intros k' r'. rewrite lookup_insert.
    destruct (decide (k = k')) as [<- | Hne].
    + intros [= <-]. simpl. destruct (Hview k r Hr) as (Hnd & Hout & Hm).
      split.
      * apply NoDup_app. split_and!; [done | | apply NoDup_singleton].
        intros x Hx ->%list_elem_of_singleton. done.
      * intros x [Hx | ->%list_elem_of_singleton]%elem_of_app.
        -- rewrite lookup_insert_ne by (by intros ->). by apply Hm.
        -- rewrite lookup_insert_eq. by eexists.
    + intros Hr'. destruct (Hview k' r' Hr') as (Hnd & Hout & Hm).
      split; [done |]. intros x Hx.
      rewrite lookup_insert_ne by (by intros ->). by apply Hm.
  - intros x u. rewrite lookup_insert.
    destruct (decide (sid = x)) as [<- | Hne].
    + intros [= <-]. simpl. rewrite lookup_insert_eq. eexists.
      split; [done |]. simpl. apply elem_of_app. right.
      by apply list_elem_of_singleton.
    + intros Hu. destruct (Husers x u Hu) as (r0 & Hr0 & Hx).
      pose proof (Hrs (currentRoom u)) as Hrel. rewrite Hr0 in Hrel.
      inversion Hrel as [r' ? (_ & _ & _ & Hiff) Heq1 Heq2 |]. subst.
      rewrite lookup_insert. destruct (decide (k = currentRoom u)) as [-> | ?].
      * eexists. split; [done |]. simpl. apply elem_of_app. left.
        rewrite <- Heq1 in Hr. injection Hr as <-. apply Hiff. by split.
      * exists r'. split; [done |]. apply Hiff. by split.
Qed.

Lemma one_room_drop (s : state) (sid : jsstring) (rs : gmap jsstring Room) :
  one_room s → vacated s sid rs →
  one_room {| st_rooms := rs; st_users := delete sid (st_users s) |}.
Proof.
  intros (Hempty & Hrooms & Husers) Hrs. split_and!; simpl.
  - specialize (Hrs []). rewrite Hempty in Hrs. by inversion Hrs.
  - intros k r Hr. specialize (Hrs k). rewrite Hr in Hrs.
    inversion Hrs as [? r0 (_ & _ & Hnd & Hiff) Heq1 Heq2 |]. subst.
    split; [done |]. intros x [Hx Hne]%Hiff.
    rewrite lookup_delete_ne by done. by apply (Hrooms k r0).
  - intros x u [Hne Hu]%lookup_delete_Some.
    destruct (Husers x u Hu) as (r0 & Hr0 & Hx).
    pose proof (Hrs (currentRoom u)) as Hrel. rewrite Hr0 in Hrel.
    inversion Hrel as [r' ? (_ & _ & _ & Hiff) Heq1 Heq2 |]. subst.
    exists r'. split; [done |]. apply Hiff. by split.
Qed.

Lemma disconnect_state (s : state) (sid : jsstring) (u : User) :
  st_users s !! sid = Some u →
  (disconnect s sid).1
  = {| st_rooms := (leave_previous s sid).1;
       st_users := delete sid (st_users s) |}.
Proof.
  intros Hu. unfold disconnect, leave_previous. rewrite Hu.
  destruct (truthy (currentRoom u)); [| done].
  destruct (st_rooms s !! currentRoom u) as [r |]; [| done].
  by destruct (splice_first sid (users r)).
Qed.

Lemma one_room_post (s : state) (k : jsstring) (r : Room)
    (ms : list Message) :
  one_room s → st_rooms s !! k = Some r →
  one_room {| st_rooms := <[k := with_messages r ms]> (st_rooms s);
              st_users := st_users s |}.
Proof.
  intros (Hempty & Hrooms & Husers) Hr. split_and!; simpl.
  - rewrite lookup_insert_ne; [done |]. intros ->. by rewrite Hempty in Hr.
  - intros k' r'. rewrite lookup_insert.
    destruct (decide (k = k')) as [<- | Hne]; [| apply Hrooms].
    intros [= <-]. simpl. by apply Hrooms.
  - intros x u Hu. destruct (Husers x u Hu) as (r0 & Hr0 & Hx).
    rewrite lookup_insert.
    destruct (decide (k = currentRoom u)) as [-> | Hne]; [| by exists r0].
    eexists. split; [done |]. simpl. rewrite Hr in Hr0. by injection Hr0 as <-.
Qed.

Lemma one_room_create (s : state) (k : jsstring) (r : Room) :
  one_room s → k ≠ [] → st_rooms s !! k = None → users r = [] →
  one_room {| st_rooms := <[k := r]> (st_rooms s); st_users := st_users s |}.
Proof.
  intros (Hempty & Hrooms & Husers) Hk Hfree Hnone. split_and!; simpl.
  - by rewrite lookup_insert_ne.
  - intros k' r'. rewrite lookup_insert.
    destruct (decide (k = k')) as [<- | Hne]; [| apply Hrooms].
    intros [= <-]. rewrite Hnone. split; [apply NoDup_nil_2 |].
    by intros x ?%not_elem_of_nil.
  - intros x u Hu. destruct (Husers x u Hu) as (r0 & Hr0 & Hx).
    rewrite lookup_insert_ne; [by exists r0 |].
    intros ->. by rewrite Hfree in Hr0.
Qed.

Lemma handle_one_room `{Bcrypt} (e : env) (s : state) (sid : jsstring)
    (q : request) :
  plain q → one_room s → one_room (handle e s sid q).1.
Proof.
  intros [_ Hcreate] Hs.
  destruct q as [| k uname pw | k rname pw creator | k text
                | k fdata fname ftype | k typ |]; simpl.
  - done.
  - unfold join_room.
    destruct (st_rooms s !! k) as [room |] eqn:Hroom; [| done].
    destruct (check_password room pw); [done |].
    pose proof (leave_previous_vacates s sid Hs) as Hrs.
    destruct (leave_previous s sid) as [rs out]. simpl in Hrs.
    pose proof (Hrs k) as Hk. rewrite Hroom in Hk.
    inversion Hk as [r ? _ Heq1 Heq2 |]. simpl.
    by apply one_room_enter.
  - unfold create_room.
    destruct (st_rooms s !! k) as [room |] eqn:Hroom; [done |].
    assert (Hk : k ≠ []) by by eapply Hcreate.
    destruct (truthy pw && truthy (trim pw));
      [destruct (bcrypt_hash (trim pw) (salt e)); [| done] |];
      by apply one_room_create.
  - unfold on_message, post.
    destruct (st_rooms s !! k) as [room |] eqn:Hroom; [| done].
    destruct (st_users s !! sid); [| done]. by apply one_room_post.
  - unfold file_upload, post.
    destruct (st_rooms s !! k) as [room |] eqn:Hroom; [| done].
    destruct (st_users s !! sid); [| done]. by apply one_room_post.
  - unfold typing. destruct (st_rooms s !! k); [| done].
    by destruct (st_users s !! sid).
  - destruct (st_users s !! sid) as [u |] eqn:Hu.
    + rewrite (disconnect_state s sid u Hu).
      by apply one_room_drop, leave_previous_vacates.
    + unfold disconnect. by rewrite Hu.
Qed.

Lemma boot_fresh_one_room : one_room (boot fresh_disk).
Proof.
  split_and!.
  - vm_compute. reflexivity.
  - intros k r Hr. assert (Hu : users r = []).
    { unfold boot, loadData, default_rooms in Hr. simpl in Hr.
      repeat (rewrite lookup_insert in Hr; case_decide;
              [injection Hr as <-; done |]).
      by rewrite lookup_empty in Hr. }
    rewrite Hu. split; [apply NoDup_nil_2 |]. by intros x ?%not_elem_of_nil.
  - intros sid u. simpl. by rewrite lookup_empty.
Qed.

Lemma persist_run_cons `{Bcrypt} (e : env) (sid : jsstring) (q : request)
    (rest : list (env * jsstring * request)) (s : state) :
  (run s ((e, sid, q) :: rest)).1 = (run (handle e s sid q).1 rest).1.
Proof.
  simpl. destruct (handle e s sid q) as [s1 out1]. simpl.
  by destruct (run s1 rest).
Qed.

Lemma run_one_room `{Bcrypt} (evs : list (env * jsstring * request)) :
  Forall (λ ev, plain ev.2) evs →
  ∀ s, one_room s → one_room (run s evs).1.
Proof.
  induction 1 as [| [[e sid] q] evs Hq _ IH]; intros s Hs; [done |].
  rewrite persist_run_cons. by apply IH, handle_one_room.
Qed.

(** On a server started without saved data, for requests whose fields are
    strings, when each handler runs to its end before the next request is
    handled, no socket id or room id is a name of [Object.prototype], and
    no request creates a room with the empty id: every socket with a user
    record is listed exactly once, in the room its record names, and in no
    other room. *)
Theorem single_active_room `{Bcrypt}
    (evs : list (env * jsstring * request)) :
  Forall (λ ev, own_name ev.1.2 ∧ plain ev.2) evs →
  let s := (run (boot fresh_disk) evs).1 in
  one_room s ∧
  (∀ sid k k' r r', st_rooms s !! k = Some r → st_rooms s !! k' = Some r' →
     sid ∈ users r → sid ∈ users r' → k = k') ∧
  (∀ sid u, st_users s !! sid = Some u →
     ∃ r, st_rooms s !! currentRoom u = Some r ∧
          length (List.filter (λ x, bool_decide (x = sid)) (users r)) = 1).
Proof.
  intros Hevs s.
  assert (Hs : one_room s).
  { apply run_one_room; [| apply boot_fresh_one_room].
    eapply Forall_impl; [exact Hevs |]. by intros ev [_ Hplain]. }
  split; [done |]. destruct Hs as (_ & Hrooms & Husers). split.
  - intros sid k k' r r' Hr Hr' Hin Hin'.
    destruct (Hrooms k r Hr) as [_ Hm]. destruct (Hm sid Hin) as (u & Hu & <-).
    destruct (Hrooms k' r' Hr') as [_ Hm'].
    destruct (Hm' sid Hin') as (u' & Hu' & <-).
    rewrite Hu in Hu'. by injection Hu' as <-.
  - intros sid u Hu. destruct (Husers sid u Hu) as (r & Hr & Hin).
    exists r. split; [done |]. destruct (Hrooms _ r Hr) as [Hnd _].
    clear -Hnd Hin. induction (users r) as [| y l IH]; [by apply not_elem_of_nil in Hin |].
    apply NoDup_cons in Hnd as [Hy Hl]. simpl.
    destruct (bool_decide_reflect (y = sid)) as [-> | Hne].
    + simpl. f_equal. clear -Hy. induction l as [| z l IH]; [done |].
      apply not_elem_of_cons in Hy as [Hz Hl]. simpl.
      rewrite bool_decide_eq_false_2 by done. by apply IH.
    + apply IH; [| done]. by apply elem_of_cons in Hin as [-> | ?].
Qed.

(** ** What no handler changes *)

Lemma handle_keeps_room `{Bcrypt} (e : env) (s : state) (sid : jsstring)
    (q : request) (k : jsstring) (r : Room) :
  st_rooms s !! k = Some r →
  ∃ r', st_rooms (handle e s sid q).1 !! k = Some r' ∧
        metadata r' = metadata r ∧ messages r `prefix_of` messages r'.
Proof.
  intros Hr.
  assert (Hsame : ∃ r', st_rooms s !! k = Some r' ∧
            metadata r' = metadata r ∧ messages r `prefix_of` messages r')
    by (by exists r).
  assert (Hpost : ∀ e' k' b,
            ∃ r', st_rooms (post e' s sid k' b).1 !! k = Some r' ∧
                  metadata r' = metadata r ∧
                  messages r `prefix_of` messages r').
  { intros e' k' b. unfold post.
    destruct (st_rooms s !! k') as [room |] eqn:Hroom; [| done].
    destruct (st_users s !! sid) as [u |]; [| done]. simpl.
    rewrite lookup_insert. destruct (decide (k' = k)) as [-> | Hne]; [| done].
    rewrite Hr in Hroom. injection Hroom as <-.
    eexists. split; [done |]. split; [done |]. simpl.
    by apply prefix_app_r. }
  destruct q as [| k' uname pw | k' rname pw creator | k' text
                | k' fdata fname ftype | k' typ |]; simpl.
  - done.
  - unfold join_room.
    destruct (st_rooms s !! k') as [room |] eqn:Hroom; [| done].
    destruct (check_password room pw); [done |].
    destruct (PersistSpec.leave_previous_lookup s sid k r Hr)
      as (r1 & Hr1 & Hname & Hpw & Hcr & Hlog).
    destruct (PersistSpec.leave_previous_lookup s sid k' room Hroom)
      as (r2 & Hr2 & _).
    destruct (leave_previous s sid) as [rs out]. simpl in Hr1, Hr2.
    rewrite Hr2. simpl. rewrite lookup_insert.
    destruct (decide (k' = k)) as [-> | Hne].
    + rewrite Hr1 in Hr2. injection Hr2 as <-. eexists. split; [done |].
      unfold metadata. simpl. by rewrite Hname, Hpw, Hcr, Hlog.
    + exists r1. split; [done |]. unfold metadata.
      by rewrite Hname, Hpw, Hcr, Hlog.
  - unfold create_room.
    destruct (st_rooms s !! k') as [room |] eqn:Hroom; [done |].
    assert (Hne : k' ≠ k) by (intros ->; by rewrite Hr in Hroom).
    destruct (truthy pw && truthy (trim pw));
      [destruct (bcrypt_hash (trim pw) (salt e)); [| done] |];
      simpl; by rewrite lookup_insert_ne.
  - apply Hpost.
  - apply Hpost.
  - unfold typing. destruct (st_rooms s !! k'); [| done].
    by destruct (st_users s !! sid).
  - destruct (st_users s !! sid) as [u |] eqn:Hu.
    + rewrite (disconnect_state s sid u Hu). simpl.
      destruct (PersistSpec.leave_previous_lookup s sid k r Hr)
        as (r1 & Hr1 & Hname & Hpw & Hcr & Hlog).
      exists r1. split; [done |]. unfold metadata.
      by rewrite Hname, Hpw, Hcr, Hlog.
    + unfold disconnect. by rewrite Hu.
Qed.

(** For requests whose fields are strings, when each handler runs to its
    end before the next request is handled (no request arrives while
    [create_room] or [join_room] waits for bcrypt) and no socket id or room
    id is a name of [Object.prototype]: a room is never removed, its name,
    password hash and creator never change, and its log only grows at the
    end: the log before a run is a prefix of the log after it. *)
Theorem rooms_only_grow `{Bcrypt} (evs : list (env * jsstring * request))
    (s : state) (k : jsstring) (r : Room) :
  Forall (λ ev, own_name ev.1.2 ∧ plain ev.2) evs →
  st_rooms s !! k = Some r →
  ∃ r', st_rooms (run s evs).1 !! k = Some r' ∧
        metadata r' = metadata r ∧ messages r `prefix_of` messages r'.
Proof.
  intros Hevs. revert s r.
  induction Hevs as [| [[e sid] q] evs _ _ IH]; intros s r Hr.
  - by exists r.
  - rewrite persist_run_cons.
    destruct (handle_keeps_room e s sid q k r Hr) as (r1 & Hr1 & Hm1 & Hp1).
    destruct (IH _ r1 Hr1) as (r2 & Hr2 & Hm2 & Hp2).
    exists r2. split; [done |]. split; [congruence |]. by etrans.
Qed.

(** ** Joining *)


(** ** Disconnecting *)


(** ** Creating a room *)


(** ** Posting *)


(** ** Creating, then joining *)


(** ** Rejected requests *)

(** A [join_error] or [create_error] is the whole answer of the handler:
    it goes to the requesting socket alone and the state is unchanged. *)
Theorem rejection_changes_nothing `{Bcrypt} (e : env) (s : state)
    (sid : jsstring) (q : request) (t : target) (text : string) :
  ((t, join_error text) ∈ (handle e s sid q).2 →
   handle e s sid q = (s, [(ToSocket sid, join_error text)])) ∧
  ((t, create_error text) ∈ (handle e s sid q).2 →
   handle e s sid q = (s, [(ToSocket sid, create_error text)])).
Proof.
  assert (Hleave : ∀ ev, ev ∈ (leave_previous s sid).2 →
            (∀ x, ev.2 ≠ join_error x) ∧ (∀ x, ev.2 ≠ create_error x)).
  { intros ev. unfold leave_previous.
    destruct (st_users s !! sid) as [u |]; [| by intros ?%not_elem_of_nil].
    destruct (truthy (currentRoom u)); [| by intros ?%not_elem_of_nil].
    destruct (st_rooms s !! currentRoom u) as [r |];
      [| by intros ?%not_elem_of_nil].
    destruct (splice_first sid (users r)); [| by intros ?%not_elem_of_nil].
    simpl.
    by intros [-> | [-> | ?%not_elem_of_nil]%elem_of_cons]%elem_of_cons. }
  assert (Hpost : ∀ k b p, (t, p) ∈ (post e s sid k b).2 →
            ∃ m, p = message m).
  { intros k b p. unfold post.
    destruct (st_rooms s !! k); [| by intros ?%not_elem_of_nil].
    destruct (st_users s !! sid); [| by intros ?%not_elem_of_nil]. simpl.
    intros [= -> ->]%list_elem_of_singleton. by eexists. }
  destruct q as [| k uname pw | k rname pw creator | k txt
                | k fdata fname ftype | k typ |]; simpl.
  - split; by intros [=]%list_elem_of_singleton.
  - unfold join_room.
    destruct (st_rooms s !! k) as [room |] eqn:Hroom;
      [| split; by intros [= -> ->]%list_elem_of_singleton].
    destruct (check_password room pw);
      [split; by intros [= -> ->]%list_elem_of_singleton |].
    destruct (leave_previous s sid) as [rs out]. simpl in Hleave.
    destruct (rs !! k) as [r |]; simpl.
    + split; intros [Hin | Hin]%elem_of_app.
      1, 3: destruct (Hleave _ Hin) as [Hj Hc]; simpl in Hj, Hc;
            first [by destruct (Hj text) | by destruct (Hc text)].
      all: revert Hin;
        by intros [[=] | [[=] | [[=] | ?%not_elem_of_nil]%elem_of_cons
                         ]%elem_of_cons]%elem_of_cons.
    + split; intros Hin; destruct (Hleave _ Hin) as [Hj Hc]; simpl in Hj, Hc;
        first [by destruct (Hj text) | by destruct (Hc text)].
  - unfold create_room.
    destruct (st_rooms s !! k) as [room |];
      [split; by intros [= -> ->]%list_elem_of_singleton |].
    destruct (truthy pw && truthy (trim pw));
      [destruct (bcrypt_hash (trim pw) (salt e));
         [| split; by intros [= -> ->]%list_elem_of_singleton] |];
      simpl;
      split;
      by intros [[=] | [[=] | ?%not_elem_of_nil]%elem_of_cons]%elem_of_cons.
  - split; by intros [m [=]]%Hpost.
  - split; by intros [m [=]]%Hpost.
  - unfold typing. destruct (st_rooms s !! k);
      [| split; by intros ?%not_elem_of_nil].
    destruct (st_users s !! sid); [| split; by intros ?%not_elem_of_nil].
    split; by intros [=]%list_elem_of_singleton.
  - unfold disconnect.
    destruct (st_users s !! sid) as [u |];
      [| split; by intros ?%not_elem_of_nil].
    destruct (truthy (currentRoom u));
      [| split; by intros ?%not_elem_of_nil].
    destruct (st_rooms s !! currentRoom u) as [r |];
      [| split; by intros ?%not_elem_of_nil].
    destruct (splice_first sid (users r));
      [| split; by intros ?%not_elem_of_nil].
    simpl. split;
      by intros [[=] | [[=] | ?%not_elem_of_nil]%elem_of_cons]%elem_of_cons.
Qed.

(** ** Persistence *)

Lemma overlay_lookup_notin (saved : list (jsstring * Room)) (k : jsstring) :
  ∀ rs : gmap jsstring Room,
    k ∉ saved.*1 → overlay_rooms rs saved !! k = rs !! k.
Proof.
  unfold overlay_rooms.
  induction saved as [| [k' r'] saved IH]; intros rs Hk; [done |].
  apply not_elem_of_cons in Hk as [Hne Hk]. simpl.
  rewrite IH by done. by rewrite lookup_insert_ne.
Qed.

Lemma overlay_lookup_in (saved : list (jsstring * Room)) (k : jsstring)
    (r : Room) :
  ∀ rs : gmap jsstring Room,
    NoDup saved.*1 → (k, r) ∈ saved → overlay_rooms rs saved !! k = Some r.
Proof.
  unfold overlay_rooms.
  induction saved as [| [k' r'] saved IH]; intros rs Hnd Hin.
  - by apply not_elem_of_nil in Hin.
  - apply NoDup_cons in Hnd as [Hk' Hnd]. simpl.
    apply elem_of_cons in Hin as [[= -> ->] | Hin].
    + fold (overlay_rooms (<[k' := r']> rs) saved).
      rewrite overlay_lookup_notin by done. apply lookup_insert_eq.
    + by apply IH.
Qed.

Lemma overlay_is_Some (saved : list (jsstring * Room)) (k : jsstring) :
  ∀ rs : gmap jsstring Room,
    is_Some (rs !! k) → is_Some (overlay_rooms rs saved !! k).
Proof.
  unfold overlay_rooms.
  induction saved as [| [k' r'] saved IH]; intros rs Hk; [done |].
  simpl. apply IH. rewrite lookup_insert. by case_decide.
Qed.

Lemma merge_lookup_notin
    (saved : list (jsstring * option (list Message))) (k : jsstring) :
  ∀ rs : gmap jsstring Room,
    k ∉ saved.*1 → merge_messages rs saved !! k = rs !! k.
Proof.
  unfold merge_messages.
  induction saved as [| [k' ms] saved IH]; intros rs Hk; [done |].
  apply not_elem_of_cons in Hk as [Hne Hk]. simpl.
  rewrite IH by done. destruct (rs !! k'); [| done].
  by rewrite lookup_insert_ne.
Qed.

Lemma merge_is_Some
    (saved : list (jsstring * option (list Message))) (k : jsstring) :
  ∀ rs : gmap jsstring Room,
    is_Some (rs !! k) ↔ is_Some (merge_messages rs saved !! k).
Proof.
  unfold merge_messages.
  induction saved as [| [k' ms] saved IH]; intros rs; [done |].
  simpl. rewrite <- IH. destruct (rs !! k') as [r |] eqn:Hr; [| done].
  rewrite lookup_insert. destruct (decide (k' = k)) as [<- | ?]; [| done].
  by rewrite Hr.
Qed.

(** What [saveData] writes when the data directory exists: for every room,
    and for nothing else, the last 100 messages of its log in
    [messages.json] and its name, password hash and creator in
    [rooms.json], with an empty member list and an empty log.  Without the
    directory the disk stays as it is. *)
Theorem saveData_contents (rs : gmap jsstring Room) (d : disk) :
  (dataDir d = false → saveData rs d = d) ∧
  (dataDir d = true →
   ∃ savedMessages savedRooms,
     saveData rs d = {| dataDir := true; messagesFile := Holds savedMessages;
                        roomsFile := Holds savedRooms |} ∧
     NoDup savedMessages.*1 ∧ NoDup savedRooms.*1 ∧
     (∀ k v, (k, v) ∈ savedMessages ↔
        ∃ r, rs !! k = Some r ∧ v = Some (slice_last 100 (messages r))) ∧
     (∀ k v, (k, v) ∈ savedRooms ↔
        ∃ r, rs !! k = Some r ∧ metadata v = metadata r ∧
             users v = [] ∧ messages v = []) ∧
     (∀ k ms, (k, Some ms) ∈ savedMessages → length ms ≤ 100)).
Proof.
  unfold saveData. split; [by intros -> |]. intros ->.
  eexists _, _. split; [done |].
  assert (Hmsgs : ∀ k v,
    (k, v) ∈ map_to_list ((λ r, Some (slice_last 100 (messages r))) <$> rs) ↔
    ∃ r, rs !! k = Some r ∧ v = Some (slice_last 100 (messages r))).
  { intros k v. rewrite elem_of_map_to_list, lookup_fmap.
    destruct (rs !! k) as [r |]; simpl.
    - split; [intros [= <-]; by exists r | by intros (? & [= <-] & ->)].
    - split; [done | by intros (? & [=] & _)]. }
  split_and!.
  - apply NoDup_fst_map_to_list.
  - apply NoDup_fst_map_to_list.
  - done.
  - intros k v. rewrite elem_of_map_to_list, lookup_fmap.
    destruct (rs !! k) as [r |]; simpl.
    + split; [intros [= <-]; by exists r |].
      intros (? & [= <-] & Hm & Hu & Hl). f_equal.
      destruct v. unfold metadata in Hm. simpl in *. by simplify_eq.
    + split; [done | by intros (? & [=] & _)].
  - intros k ms (r & _ & [= ->])%Hmsgs.
    rewrite BackendSpec.slice_last_length. lia.
Qed.

(** Saving and loading again.  When the data directory exists and no room
    id is a name of [Object.prototype], a server that starts from the
    saved disk has every saved room with its name, password hash and
    creator, and with an empty member list and an empty log; a default room
    that was not saved is as in the source; and the disk is left as
    saved. *)
Theorem save_then_load (rs : gmap jsstring Room) (d : disk) :
  dataDir d = true → (∀ k, is_Some (rs !! k) → own_name k) →
  (loadData default_rooms (saveData rs d)).2 = saveData rs d ∧
  ∀ k, (loadData default_rooms (saveData rs d)).1 !! k
       = match rs !! k with
         | Some r => Some (room_to_save r)
         | None => default_rooms !! k
         end.
Proof.
  intros Hd _. unfold saveData, loadData. rewrite Hd. simpl.
  split; [done |]. intros k. destruct (rs !! k) as [r |] eqn:Hr.
  - apply overlay_lookup_in; [apply NoDup_fst_map_to_list |].
    apply elem_of_map_to_list. by rewrite lookup_fmap, Hr.
  - rewrite overlay_lookup_notin, merge_lookup_notin; [done | |].
    + intros ([k' v] & -> & Hin%elem_of_map_to_list)%list_elem_of_fmap.
      simpl in Hr. by rewrite lookup_fmap, Hr in Hin.
    + intros ([k' v] & -> & Hin%elem_of_map_to_list)%list_elem_of_fmap.
      simpl in Hr. by rewrite lookup_fmap, Hr in Hin.
Qed.

(** [loadData] on a disk where each document is missing, does not parse,
    or parses to an object of the shape [saveData] writes: in
    [messages.json] an array of messages or a falsy value for every key,
    in [rooms.json] a room for every key.  When the directory or a
    document is missing, or a document does not parse, the rooms are
    exactly the rooms it started with and the disk is re-initialised with
    two empty documents, from which the next start loads the same rooms
    again.  When both documents are such objects and no key is a name of
    [Object.prototype], every room it started with is still there and the
    disk is not written. *)
Theorem loadData_recovers (rs : gmap jsstring Room) (d : disk) :
  ((dataDir d = false ∨ messagesFile d = Absent ∨ messagesFile d = Corrupt ∨
    roomsFile d = Absent ∨ roomsFile d = Corrupt) →
   loadData rs d = (rs, fresh_disk) ∧
   loadData rs (loadData rs d).2 = (rs, fresh_disk)) ∧
  (∀ sm sr, dataDir d = true → messagesFile d = Holds sm →
            roomsFile d = Holds sr →
            Forall own_name sm.*1 → Forall own_name sr.*1 →
     (loadData rs d).2 = d ∧
     ∀ k, is_Some (rs !! k) → is_Some ((loadData rs d).1 !! k)).
Proof.
  split.
  - intros Hbad. rewrite (PersistSpec.loadData_fresh rs d Hbad). done.
  - intros sm sr Hd Hm Hr _ _. unfold loadData. rewrite Hd, Hm, Hr.
    split; [done |]. intros k Hk. simpl.
    by apply overlay_is_Some, merge_is_Some.
Qed.

(** ** Instances *)

Local Ltac own := unfold own_name, prototype_names; compute_done.

Lemma plain_join (k uname pw : jsstring) :
  own_name k → plain (JoinRoom k uname pw).
Proof. intros Hk. split; [by intros ? [= <-] | done]. Qed.

Lemma plain_post (k text : jsstring) :
  own_name k → plain (PostMessage k text).
Proof. intros Hk. split; [by intros ? [= <-] | done]. Qed.



Lemma single_active_room_witness :
  one_room
    (run (boot fresh_disk)
       [ (e0, u16 "s1", JoinRoom (u16 "general") (u16 "ann") []);
         (e0, u16 "s1", JoinRoom (u16 "random") (u16 "ann") []) ]).1.
Proof.
  destruct (single_active_room
              [ (e0, u16 "s1", JoinRoom (u16 "general") (u16 "ann") []);
                (e0, u16 "s1", JoinRoom (u16 "random") (u16 "ann") []) ])
    as [Hone _]; [| exact Hone].
  apply Forall_cons. split; [split; [own | apply plain_join; own] |].
  apply Forall_cons.
  split; [split; [own | apply plain_join; own] | apply Forall_nil_2].
Defined.






Lemma rejection_changes_nothing_witness :
  handle e0 (boot fresh_disk) (u16 "s1")
    (JoinRoom (u16 "nowhere") (u16 "ann") [])
  = (boot fresh_disk, [(ToSocket (u16 "s1"), join_error RoomNotFound)]).
Proof.
  apply (rejection_changes_nothing e0 (boot fresh_disk) (u16 "s1")
           (JoinRoom (u16 "nowhere") (u16 "ann") []) (ToSocket (u16 "s1"))).
  vm_compute. apply list_elem_of_here.
Defined.

Lemma rooms_only_grow_witness :
  ∃ r', st_rooms (flood 3) !! u16 "general" = Some r' ∧
        metadata r' = metadata (public_room "General Chat").
Proof.
  destruct (rooms_only_grow
              [ (e0, u16 "s1", JoinRoom (u16 "general") (u16 "ann") []);
                (e0, u16 "s1", PostMessage (u16 "general") (u16 "hi"));
                (e0, u16 "s1", PostMessage (u16 "general") (u16 "hi"));
                (e0, u16 "s1", PostMessage (u16 "general") (u16 "hi")) ]
              (boot fresh_disk) (u16 "general") (public_room "General Chat"))
    as (r' & Hr' & Hmeta & _).
  - apply Forall_cons. split; [split; [own | apply plain_join; own] |].
    repeat (apply Forall_cons; split; [split; [own | apply plain_post; own] |]).
    apply Forall_nil_2.
  - vm_compute. reflexivity.
  - exists r'. split; [exact Hr' | exact Hmeta].
Defined.

Lemma saveData_contents_witness :
  dataDir (saveData (st_rooms (flood 3)) fresh_disk) = true.
Proof.
  destruct (saveData_contents (st_rooms (flood 3)) fresh_disk) as [_ Hsave].
  destruct (Hsave eq_refl) as (sm & sr & Heq & _). by rewrite Heq.
Defined.

Lemma default_rooms_own (k : jsstring) :
  is_Some (default_rooms !! k) → own_name k.
Proof.
  unfold default_rooms. intros [r Hr].
  repeat (rewrite lookup_insert in Hr; case_decide; [subst; own |]).
  by rewrite lookup_empty in Hr.
Qed.

Lemma save_then_load_witness :
  (loadData default_rooms (saveData default_rooms fresh_disk)).1
    !! u16 "general" = Some (public_room "General Chat").
Proof.
  destruct (save_then_load default_rooms fresh_disk eq_refl
              default_rooms_own) as [_ Hload].
  rewrite Hload. reflexivity.
Defined.

Lemma loadData_recovers_witness :
  loadData default_rooms
    {| dataDir := true; messagesFile := Corrupt; roomsFile := Holds [] |}
  = (default_rooms, fresh_disk) ∧
  (loadData default_rooms saved_disk).2 = saved_disk ∧
  is_Some ((loadData default_rooms saved_disk).1 !! u16 "general").
Proof.
  split.
  - destruct (loadData_recovers default_rooms
                {| dataDir := true; messagesFile := Corrupt;
                   roomsFile := Holds [] |}) as [Hbad _].
    apply Hbad. right. right. by left.
  - destruct (loadData_recovers default_rooms saved_disk) as [_ Hgood].
    destruct (Hgood _ _ eq_refl eq_refl eq_refl) as [Hdisk Hkept].
    + unfold own_name. compute_done.
    + unfold own_name. compute_done.
    + split; [exact Hdisk |]. apply Hkept. by eexists.
Defined.

End PersistExtra.

(** * Properties of the first server of [server.js] *)

Module SimpleSpec.
Import Simple.

Lemma simple_run_cons (e : env) (sid : jsstring) (q : request)
    (rest : list (env * jsstring * request)) (s : state) :
  (run s ((e, sid, q) :: rest)).1 = (run (handle e s sid q).1 rest).1.
Proof.
  simpl. destruct (handle e s sid q) as [s1 out1]. simpl.
  by destruct (run s1 rest).
Qed.

(** ** Members *)

Lemma handle_keeps_member (e : env) (s : state) (sid : jsstring)
    (q : request) (k x : jsstring) (r : Room) :
  st_rooms s !! k = Some r → x ∈ users r → leaves x k (e, sid, q) = false →
  ∃ r', st_rooms (handle e s sid q).1 !! k = Some r' ∧ x ∈ users r'.
Proof.
  intros Hr Hx Hq. destruct q as [uname | rn | rm msg | rn | |]; simpl.
  - by exists r.
  - rewrite lookup_insert. destruct (decide (rn = k)) as [-> | Hne].
    + rewrite Hr. eexists. split; [done |]. simpl. by apply elem_of_union_r.
    + by exists r.
  - unfold send_message. destruct (st_rooms s !! rm) as [room |] eqn:Hroom.
    + simpl. rewrite lookup_insert. destruct (decide (rm = k)) as [-> | Hne].
      * rewrite Hr in Hroom. injection Hroom as <-. by eexists.
      * by exists r.
    + by exists r.
  - destruct (st_rooms s !! rn) as [room |] eqn:Hroom; [| by exists r].
    rewrite lookup_insert. destruct (decide (rn = k)) as [-> | Hne].
    + rewrite Hr in Hroom. injection Hroom as <-. eexists. split; [done |].
      simpl. apply elem_of_difference. split; [done |].
      intros ->%elem_of_singleton. simpl in Hq.
      by rewrite bool_decide_eq_true_2 in Hq.
    + by exists r.
  - by exists r.
  - by exists r.
Qed.

(** A member of a room stays a member through every run in which it does
    not itself leave that room: nothing else takes a socket out of a
    member set, not the [disconnect] of the socket either. *)
Theorem members_stay (evs : list (env * jsstring * request)) (s : state)
    (k x : jsstring) (r : Room) :
  st_rooms s !! k = Some r → x ∈ users r →
  Forall (λ ev, leaves x k ev = false) evs →
  ∃ r', st_rooms (run s evs).1 !! k = Some r' ∧ x ∈ users r'.
Proof.
  intros Hr Hx Hevs. revert s r Hr Hx.
  induction Hevs as [| [[e sid] q] evs Hq _ IH]; intros s r Hr Hx.
  - by exists r.
  - rewrite simple_run_cons.
    destruct (handle_keeps_member e s sid q k x r Hr Hx Hq) as (r1 & Hr1 & Hx1).
    by apply (IH _ r1).
Qed.

(** ** Logs *)

Lemma handle_log (e : env) (s : state) (sid : jsstring) (q : request)
    (k : jsstring) :
  is_Some (st_rooms s !! k) →
  is_Some (st_rooms (handle e s sid q).1 !! k) ∧
  length (log_of (handle e s sid q).1 k)
  = length (log_of s k) + (if posts_to k (e, sid, q) then 1 else 0).
Proof.
  intros [r Hr]. unfold log_of.
  destruct q as [uname | rn | rm msg | rn | |]; simpl.
  - rewrite Hr. split; [done | lia].
  - rewrite lookup_insert. destruct (decide (rn = k)) as [-> | Hne].
    + rewrite Hr. simpl. split; [done | lia].
    + rewrite Hr. split; [done | lia].
  - unfold send_message, posts_to. simpl.
    destruct (st_rooms s !! rm) as [room |] eqn:Hroom.
    + simpl. rewrite lookup_insert. destruct (decide (rm = k)) as [-> | Hne].
      * rewrite bool_decide_eq_true_2 by done.
        rewrite Hr in Hroom. injection Hroom as <-. rewrite Hr. simpl.
        split; [done |]. by rewrite length_app.
      * rewrite bool_decide_eq_false_2 by done. rewrite Hr. simpl.
        split; [done | lia].
    + simpl. rewrite !Hr, bool_decide_eq_false_2; [simpl; split; [done | lia] |].
      intros ->. by rewrite Hr in Hroom.
  - destruct (st_rooms s !! rn) as [room |] eqn:Hroom.
    + rewrite lookup_insert. destruct (decide (rn = k)) as [-> | Hne].
      * rewrite Hr in Hroom. injection Hroom as <-. rewrite Hr. simpl.
        split; [done | lia].
      * rewrite Hr. split; [done | lia].
    + rewrite Hr. split; [done | lia].
  - rewrite Hr. split; [done | lia].
  - rewrite Hr. split; [done | lia].
Qed.

(** The log of an existing room has no bound and no filter: after a run,
    it is longer by the number of [send_message] events the run addressed
    to the room, whoever sent them, registered or not, member or not. *)
Theorem log_counts_posts (evs : list (env * jsstring * request)) (s : state)
    (k : jsstring) :
  is_Some (st_rooms s !! k) →
  length (log_of (run s evs).1 k)
  = length (log_of s k) + length (List.filter (posts_to k) evs).
Proof.
  revert s. induction evs as [| [[e sid] q] evs IH]; intros s Hk.
  - simpl. lia.
  - rewrite simple_run_cons. destruct (handle_log e s sid q k Hk) as [Hk1 Hlen].
    rewrite (IH _ Hk1), Hlen. simpl.
    destruct (posts_to k (e, sid, q)); simpl; lia.
Qed.

(** ** Joining without a registration *)

(** [join_room] asks for nothing: any socket, registered or not, becomes a
    member of the room, which is created when it is missing, and receives
    the last 50 messages of the log.  The others are told the registered
    name, or the socket id when there is no name; an unregistered socket
    gets no user record. *)
Theorem join_room_any_socket (s : state) (sid rn : jsstring) :
  (∃ r', st_rooms (join_room s sid rn).1 !! rn = Some r' ∧ sid ∈ users r' ∧
         messages r' = log_of s rn ∧
         (∀ x, x ∈ users r' ↔ x = sid ∨
                 ∃ r, st_rooms s !! rn = Some r ∧ x ∈ users r)) ∧
  (join_room s sid rn).2
  = [ (ToSocket sid, room_history rn (slice_last 50 (log_of s rn)));
      (ToRoomExcept rn sid,
       user_joined rn (display (st_users s !! sid) sid)) ] ∧
  (st_users s !! sid = None →
   st_users (join_room s sid rn).1 = st_users s ∧
   display (st_users s !! sid) sid = sid).
Proof.
  unfold join_room, log_of. simpl. rewrite lookup_insert_eq. split_and!.
  - eexists. split; [done |]. simpl. split_and!.
    + by apply elem_of_union_l, elem_of_singleton.
    + by destruct (st_rooms s !! rn).
    + intros x. rewrite elem_of_union, elem_of_singleton.
      destruct (st_rooms s !! rn) as [r |]; simpl.
      * split; [intros [-> | Hx]; [by left | right; by exists r] |].
        intros [-> | (? & [= <-] & Hx)]; [by left | by right].
      * split; [intros [-> | Hx%not_elem_of_empty]; [by left | done] |].
        intros [-> | (? & [=] & _)]. by left.
  - by destruct (st_rooms s !! rn).
  - by intros ->.
Qed.

(** ** Instances *)

Lemma members_stay_witness :
  ∃ r', st_rooms
          (run initial
             [ (e0, u16 "s1", JoinRoom (u16 "lobby"));
               (e0, u16 "s1", Disconnect) ]).1 !! u16 "lobby" = Some r' ∧
        u16 "s1" ∈ users r'.
Proof.
  rewrite simple_run_cons.
  apply (members_stay [(e0, u16 "s1", Disconnect)] _ (u16 "lobby")
           (u16 "s1")
           {| name := u16 "lobby"; users := {[u16 "s1"]}; messages := [] |}).
  - vm_compute. reflexivity.
  - simpl. by apply elem_of_singleton.
  - by repeat constructor.
Defined.

Lemma log_counts_posts_witness :
  length
    (log_of
       (run (join_room initial (u16 "s1") (u16 "lobby")).1
          [ (e0, u16 "s9", SendMessage (u16 "lobby") (VString []));
            (e0, u16 "s9", SendMessage (u16 "lobby") (VOther false)) ]).1
       (u16 "lobby")) = 2.
Proof.
  rewrite log_counts_posts; [reflexivity |]. vm_compute. by eexists.
Defined.

Lemma join_room_any_socket_witness :
  st_users (join_room initial (u16 "s1") (u16 "lobby")).1 = ∅ ∧
  display (st_users initial !! u16 "s1") (u16 "s1") = u16 "s1".
Proof.
  destruct (join_room_any_socket initial (u16 "s1") (u16 "lobby"))
    as (_ & _ & Hnone).
  apply Hnone. reflexivity.
Defined.

End SimpleSpec.

(** * Properties of the client *)

Module ClientSpec.
Import Client.

(** ** The typing list *)

Lemma foldl_set_add (a : list jsstring) :
  ∀ acc : list jsstring,
    NoDup acc →
    NoDup (foldl (λ acc x, Backend.set_add x acc) acc a) ∧
    ∀ x, x ∈ foldl (λ acc x, Backend.set_add x acc) acc a ↔ x ∈ acc ∨ x ∈ a.
Proof.
  induction a as [| y a IH]; intros acc Hacc; simpl.
  - split; [done |]. intros x. rewrite elem_of_nil. tauto.
  - destruct (IH (Backend.set_add y acc)) as [Hnd Hiff].
    { by apply BackendExtra.NoDup_set_add. }
    split; [done |]. intros x.
    rewrite Hiff, BackendSpec.elem_of_set_add, elem_of_cons. tauto.
Qed.

(** The handler of [user_typing].  On [isTyping] the new list has no
    duplicates and holds the user and exactly the users of the old list;
    otherwise the user is gone from the list and every other entry is
    kept. *)
Theorem typing_list (prev : list jsstring) (username : jsstring) :
  (NoDup (on_user_typing prev username true) ∧
   ∀ x, x ∈ on_user_typing prev username true ↔ x = username ∨ x ∈ prev) ∧
  ((username ∉ on_user_typing prev username false) ∧
   (∀ x, x ∈ on_user_typing prev username false ↔ x ∈ prev ∧ x ≠ username) ∧
   on_user_typing prev username false `sublist_of` prev).
Proof.
  unfold on_user_typing, array_of_set.
  destruct (foldl_set_add prev [] (NoDup_nil_2 (A := jsstring))) as [Hnd Hiff]. split_and!.
  - by apply BackendExtra.NoDup_set_add.
  - intros x. rewrite BackendSpec.elem_of_set_add, Hiff, elem_of_nil. tauto.
  - rewrite list_elem_of_filter. tauto.
  - intros x. rewrite list_elem_of_filter. tauto.
  - apply sublist_filter.
Qed.

(** ** The room list *)

Lemma room_update_lookup (prev : list RoomEntry) (k : jsstring) (n : nat)
    (f : option bool) (i : nat) :
  on_room_update prev k n f !! i
  = (λ room, if decide (id room = k)
             then {| id := id room; name := name room; userCount := n;
                     hasPassword := f; creator := creator room |}
             else room) <$> prev !! i.
Proof. apply list_lookup_fmap. Qed.

(** The handler of [room_update] keeps the list as long as it was, with
    the same ids, names and creators in the same order; the entries of the
    room named in the event get its count and its password flag, the other
    entries are untouched. *)
Theorem room_update_applied (prev : list RoomEntry) (k : jsstring)
    (n : nat) (f : option bool) :
  length (on_room_update prev k n f) = length prev ∧
  id <$> on_room_update prev k n f = id <$> prev ∧
  name <$> on_room_update prev k n f = name <$> prev ∧
  creator <$> on_room_update prev k n f = creator <$> prev ∧
  (∀ i room, prev !! i = Some room → id room = k →
     ∃ room', on_room_update prev k n f !! i = Some room' ∧
              userCount room' = n ∧ hasPassword room' = f) ∧
  (∀ i room, prev !! i = Some room → id room ≠ k →
     on_room_update prev k n f !! i = Some room).
Proof.
  unfold on_room_update. split_and!.
  - apply length_fmap.
  - rewrite <- list_fmap_compose. apply list_fmap_ext.
    intros i room _. simpl. by case_decide.
  - rewrite <- list_fmap_compose. apply list_fmap_ext.
    intros i room _. simpl. by case_decide.
  - rewrite <- list_fmap_compose. apply list_fmap_ext.
    intros i room _. simpl. by case_decide.
  - intros i room Hi Hk. fold (on_room_update prev k n f).
    rewrite room_update_lookup, Hi. simpl.
    rewrite decide_True by done. by eexists.
  - intros i room Hi Hk. fold (on_room_update prev k n f).
    rewrite room_update_lookup, Hi. simpl. by rewrite decide_False.
Qed.

Lemma room_update_applied_witness :
  on_room_update
    [ {| id := u16 "general"; name := u16 "General Chat"; userCount := 0;
         hasPassword := Some false; creator := u16 "system" |} ]
    (u16 "random") 3 (Some false) !! 0
  = Some {| id := u16 "general"; name := u16 "General Chat"; userCount := 0;
            hasPassword := Some false; creator := u16 "system" |}.
Proof.
  destruct (room_update_applied
              [ {| id := u16 "general"; name := u16 "General Chat";
                   userCount := 0; hasPassword := Some false;
                   creator := u16 "system" |} ]
              (u16 "random") 3 (Some false)) as (_ & _ & _ & _ & _ & Hother).
  apply Hother; [reflexivity | discriminate].
Defined.

(** The [room_update] that [join_room] of [server.js] sends to the room a
    socket leaves carries no password flag.  A client that applies it
    holds, for that room, the new count and an undefined flag, whatever
    the flag was and whether or not the room has a password. *)
Theorem left_room_loses_flag (s : Persist.state) (sid : jsstring)
    (t : target) (k : jsstring) (n : nat) (f : option bool)
    (prev : list RoomEntry) (i : nat) (room : RoomEntry) :
  (t, Persist.room_update k n f) ∈ (Persist.leave_previous s sid).2 →
  prev !! i = Some room → id room = k →
  t = ToRoom k ∧
  ∃ room', on_room_update prev k n f !! i = Some room' ∧
           hasPassword room' = None ∧ userCount room' = n.
Proof.
  intros Hin Hi Hk.
  assert (Hev : t = ToRoom k ∧ f = None).
  { revert Hin. unfold Persist.leave_previous.
    destruct (Persist.st_users s !! sid) as [u |];
      [| by intros ?%not_elem_of_nil].
    destruct (truthy (Persist.currentRoom u));
      [| by intros ?%not_elem_of_nil].
    destruct (Persist.st_rooms s !! Persist.currentRoom u) as [r |];
      [| by intros ?%not_elem_of_nil].
    destruct (Persist.splice_first sid (Persist.users r));
      [| by intros ?%not_elem_of_nil].
    simpl.
    by intros [[=] | [[= -> -> -> ->] | ?%not_elem_of_nil]%elem_of_cons
              ]%elem_of_cons. }
  destruct Hev as [-> ->]. split; [done |].
  rewrite room_update_lookup, Hi. simpl. rewrite decide_True by done.
  by eexists.
Qed.

(** ** The form of a new room *)

Lemma dashed_safe (s : jsstring) :
  Forall (λ c, url_safe c = true) (dashed s).
Proof.
  unfold dashed. apply Forall_fmap, Forall_true. intros c. simpl.
  by destruct (url_safe c) eqn:Hc.
Qed.

(** What [handleCreateRoom] hands to [create_room], for any
    [toLowerCase].  Nothing is sent when the id or the name is blank or the
    two passwords differ.  Otherwise the room id has only the characters
    [a-z], [0-9] and [-], one for each character of the lower-cased trimmed
    input; the name is the trimmed input; and the password is sent as it
    was typed, untrimmed. *)
Theorem create_form_request (toLowerCase : jsstring → jsstring)
    (newRoomId newRoomName roomPassword confirmPassword username : jsstring) :
  (handleCreateRoom toLowerCase newRoomId newRoomName roomPassword
     confirmPassword username = None ↔
   trim newRoomId = [] ∨ trim newRoomName = [] ∨
   roomPassword ≠ confirmPassword) ∧
  (∀ req,
     handleCreateRoom toLowerCase newRoomId newRoomName roomPassword
       confirmPassword username = Some req →
     Forall (λ c, url_safe c = true) (roomId req) ∧
     length (roomId req) = length (toLowerCase (trim newRoomId)) ∧
     roomName req = trim newRoomName ∧ Backend.trimmed (roomName req) ∧
     password req = roomPassword ∧ roomPassword = confirmPassword ∧
     room_creator req = username).
Proof.
  unfold handleCreateRoom. split.
  - destruct (trim newRoomId) as [| c a] eqn:Ha; simpl.
    { split; [by left | done]. }
    destruct (trim newRoomName) as [| c' b] eqn:Hb; simpl.
    { split; [right; by left | done]. }
    case_decide; split; try done.
    + intros [? | [? | ?]]; done.
    + intros _. by right; right.
  - intros req.
    destruct (truthy (trim newRoomId)); [| done]. simpl.
    destruct (truthy (trim newRoomName)) eqn:Hb; [| done].
    case_decide; [| done]. intros [= <-]. simpl.
    split_and!; try done.
    + apply dashed_safe.
    + unfold dashed. apply length_fmap.
    + apply TrimFacts.trim_trimmed. by destruct (trim newRoomName).
Qed.

Lemma create_form_request_witness :
  roomId <$> handleCreateRoom (λ s, s) (u16 " my room ") (u16 "My Room")
               (u16 " secret ") (u16 " secret ") (u16 "ann")
  = Some (u16 "my-room").
Proof.
  destruct (create_form_request (λ s, s) (u16 " my room ") (u16 "My Room")
              (u16 " secret ") (u16 " secret ") (u16 "ann")) as [_ Hreq].
  destruct (Hreq _ eq_refl) as (_ & _ & _ & _ & _ & _ & _). reflexivity.
Defined.

Lemma left_room_loses_flag_witness :
  ∃ room',
    on_room_update
      [ {| id := u16 "vault"; name := u16 "Vault"; userCount := 1;
           hasPassword := Some true; creator := u16 "ann" |} ]
      (u16 "vault") 0 None !! 0 = Some room' ∧
    hasPassword room' = None.
Proof.
  pose (s := (Persist.join_room Persist.vault (u16 "s1") (u16 "vault")
                (u16 "ann") (u16 "secret")).1).
  destruct (left_room_loses_flag s (u16 "s1") (ToRoom (u16 "vault"))
              (u16 "vault") 0 None
              [ {| id := u16 "vault"; name := u16 "Vault"; userCount := 1;
                   hasPassword := Some true; creator := u16 "ann" |} ]
              0 {| id := u16 "vault"; name := u16 "Vault"; userCount := 1;
                   hasPassword := Some true; creator := u16 "ann" |})
    as (_ & room' & Hr' & Hf & _).
  - vm_compute. apply list_elem_of_further, list_elem_of_here.
  - reflexivity.
  - reflexivity.
  - by exists room'.
Defined.

End ClientSpec.
